(** * Interleaved pedestal finder ([lstchain_find_pedestals.py])

    A shallow embedding of [find_pedestals] and of the per-file body of
    [main], with the properties of the period / phase grid search, the
    window selector and the contamination remover.

    Numbers.  Timestamps, periods and phases are Python / NumPy floats in
    the script; they are embedded as exact rationals [Q], so every result
    below is a statement about the algorithm in exact arithmetic.  A float
    that is NaN is kept apart ([NaN] of [fval], or [None] for a folded
    timestamp).  Histogram counts and array indices are [Z].  Python
    exceptions are the [Raise] outcomes of [result]. *)

From Stdlib Require Import ZArith QArith Qround List Bool Lia Permutation Sorted.
Import ListNotations.

Open Scope Z_scope.
Open Scope Q_scope.

(** ** Outcomes: a value or a Python exception *)

Inductive exn : Set :=
| ValueError
| IndexError
| TypeError
| ZeroDivisionError.

Inductive result (A : Type) : Type :=
| Ok (a : A)
| Raise (e : exn).

Arguments Ok {A} a.
Arguments Raise {A} e.

Definition bind {A B : Type} (m : result A) (k : A -> result B) : result B :=
  match m with
  | Ok a => k a
  | Raise e => Raise e
  end.

Notation "x <- m ;; k" := (bind m (fun x => k))
  (at level 61, m at next level, right associativity).
Notation "' pat <- m ;; k" := (bind m (fun x => match x with pat => k end))
  (at level 61, pat pattern, m at next level, right associativity).

(** ** The NumPy operations the script uses *)

Module Np.

(** [a % p] on floats: the result takes the sign of the divisor
    ([a - p * floor (a / p)]); modulo zero is NaN. *)
Definition mod_ (a p : Q) : option Q :=
  if Qeq_bool p 0 then None
  else Some (a - p * inject_Z (Qfloor (a / p))).

(** [np.linspace(start, stop, num)], end point included. *)
Definition linspace (start stop : Q) (num : nat) : list Q :=
  match num with
  | O => []
  | S O => [start]
  | S n =>
      let step := (stop - start) / inject_Z (Z.of_nat n) in
      map (fun k => start + inject_Z (Z.of_nat k) * step) (seq 0 num)
  end.

(** Indexing with one integer: a negative index counts from the end, an
    index outside [-len, len) raises. *)
Definition index {A : Type} (l : list A) (i : Z) : result A :=
  let n := Z.of_nat (length l) in
  let j := if (i <? 0)%Z then (i + n)%Z else i in
  if ((j <? 0) || (n <=? j))%Z then Raise IndexError
  else match nth_error l (Z.to_nat j) with
       | Some a => Ok a
       | None => Raise IndexError
       end.

(** [np.max] of an integer array; an empty array raises. *)
Definition max (l : list Z) : result Z :=
  match l with
  | [] => Raise ValueError
  | x :: l' => Ok (fold_left Z.max l' x)
  end.

(** Position of the first occurrence of [m]. *)
Fixpoint first_index (m : Z) (l : list Z) : Z :=
  match l with
  | [] => 0
  | x :: l' => if (x =? m)%Z then 0%Z else (1 + first_index m l')%Z
  end.

(** [np.argmax]: the first index of the maximum. *)
Definition argmax (l : list Z) : result Z :=
  m <- max l ;; Ok (first_index m l).

(** Bin of a value of [lo, hi] in [n] equal-width bins; the last bin is
    closed on the right. *)
Definition bin_index (lo hi : Q) (n : Z) (x : Q) : Z :=
  if Qeq_bool x hi then (n - 1)%Z
  else Qfloor ((x - lo) / (hi - lo) * inject_Z n).

Definition in_range (lo hi : Q) (x : option Q) : list Q :=
  match x with
  | Some v => if Qle_bool lo v && Qle_bool v hi then [v] else []
  | None => []
  end.

Definition count_bin (lo hi : Q) (n : Z) (kept : list Q) (k : Z) : Z :=
  Z.of_nat (length (filter (fun x => (bin_index lo hi n x =? k)%Z) kept)).

(** An empty range is widened by one half on each side. *)
Definition outer_edges (first_edge last_edge : Q) : Q * Q :=
  if Qeq_bool first_edge last_edge
  then (first_edge - (1 # 2), last_edge + (1 # 2))
  else (first_edge, last_edge).

(** [np.histogram(a, bins=bins, range=(lo, hi))] for an integer [bins]:
    the counts and the [bins + 1] edges.  Values outside the range (and
    NaN) are not counted; [bins < 1] and [hi < lo] raise. *)
Definition histogram (a : list (option Q)) (bins : Z) (range : Q * Q)
  : result (list Z * list Q) :=
  if (bins <? 1)%Z then Raise ValueError
  else if Qle_bool (fst range) (snd range) then
    let lo := fst (outer_edges (fst range) (snd range)) in
    let hi := snd (outer_edges (fst range) (snd range)) in
    let kept := flat_map (in_range lo hi) a in
    Ok (map (count_bin lo hi bins kept)
            (map Z.of_nat (seq 0 (Z.to_nat bins))),
        linspace lo hi (S (Z.to_nat bins)))
  else Raise ValueError.

End Np.

(** ** [find_pedestals] *)

(** The running best of a grid search: [max_peak] and the hypothesis,
    histogram counts and bin edges recorded with it.  The period loop
    records [best_period] (initially [None]), the phase loop [best_phase]
    (initially [0]); [best_contents] and [best_bins] are shared by the two
    loops. *)
Record best (H : Type) : Type := Best {
  max_peak : Z;
  best_hyp : H;
  best_contents : option (list Z);
  best_bins : option (list Q)
}.

Arguments Best {H} _ _ _ _.
Arguments max_peak {H} _.
Arguments best_hyp {H} _.
Arguments best_contents {H} _.
Arguments best_bins {H} _.

Section GridSearch.

Context {H : Type}.

(** [hist h]: the folded histogram of hypothesis [h] (the first two lines
    of a loop body); [record h]: the value stored for [h] when it becomes
    the best. *)
Variable hist : Q -> result (list Z * list Q).
Variable record : Q -> H.

(** One pass through the body shared by the loops of lines 128-136 and
    144-152: [if np.max(contents) < max_peak: continue], else the four
    assignments. *)
Definition search_body (st : best H) (h : Q) : result (best H) :=
  '(contents, bins) <- hist h ;;
  peak <- Np.max contents ;;
  if (peak <? max_peak st)%Z then Ok st
  else Ok (Best peak (record h) (Some contents) (Some bins)).

Fixpoint search (grid : list Q) (st : best H) : result (best H) :=
  match grid with
  | [] => Ok st
  | h :: grid' => st' <- search_body st h ;; search grid' st'
  end.

End GridSearch.

Definition period_step_width : Q := 1 # 10000000.
Definition period_step_range : list Q := Np.linspace (-50) 50 101.
Definition average_nevents_per_bin : Z := 1.
Definition steps : nat := 1000.

Definition nbins_of (timestamps : list Q) : Z :=
  (Z.of_nat (length timestamps) / average_nevents_per_bin)%Z.

Definition trial_period (period_mean i : Q) : Q :=
  period_mean + i * period_step_width.

(** Lines 129-130: fold by the trial period, histogram over
    [(0, period_mean)]. *)
Definition period_hist (timestamps : list Q) (nbins : Z) (period_mean i : Q)
  : result (list Z * list Q) :=
  let tmod := map (fun t => Np.mod_ t (trial_period period_mean i)) timestamps in
  Np.histogram tmod nbins (0, period_mean).

(** Lines 145-146: shift by the trial phase, fold by [best_period],
    histogram over [(0, best_period)]. *)
Definition phase_fold (timestamps : list Q) (best_period phase : Q)
  : list (option Q) :=
  map (fun t => Np.mod_ (t + phase) best_period) timestamps.

Definition phase_hist (timestamps : list Q) (nbins : Z) (best_period phase : Q)
  : result (list Z * list Q) :=
  Np.histogram (phase_fold timestamps best_period phase) nbins (0, best_period).

Definition phase_grid (best_period : Q) : list Q :=
  Np.linspace 0 best_period steps.

(** Lines 127-136. *)
Definition period_search (timestamps : list Q) (nbins : Z) (period_mean : Q)
  : result (best (option Q)) :=
  search (period_hist timestamps nbins period_mean)
         (fun i => Some (trial_period period_mean i))
         period_step_range
         (Best 0%Z None None None).

(** Lines 140-152; [best_contents] and [best_bins] enter with the values the
    period loop left in them. *)
Definition phase_search (timestamps : list Q) (nbins : Z) (best_period : Q)
           (from_period : best (option Q)) : result (best Q) :=
  search (phase_hist timestamps nbins best_period)
         (fun phase => phase)
         (phase_grid best_period)
         (Best 0%Z 0 (best_contents from_period) (best_bins from_period)).

(** Using a variable that is still [None] as an array or a number. *)
Definition not_none {A : Type} (o : option A) : result A :=
  match o with
  | Some a => Ok a
  | None => Raise TypeError
  end.

Definition gt_tenth (c peak : Z) : bool :=
  negb (Qle_bool (inject_Z c) ((1 # 10) * inject_Z peak)).

(** Lines 156-167: the peak bin, its two neighbours, and the outer edges
    [(minval, maxval)] of the window. *)
Definition window_edges (contents : list Z) (bins : list Q) : result (Q * Q) :=
  ibin <- Np.argmax contents ;;
  left <- Np.index contents (ibin - 1) ;;
  peak <- Np.index contents ibin ;;
  let ifirst := if gt_tenth left peak then (ibin - 1)%Z else ibin in
  right <- Np.index contents (ibin + 1) ;;
  peak <- Np.index contents ibin ;;
  let ilast := if gt_tenth right peak then (ibin + 1)%Z else ibin in
  minval <- Np.index bins ifirst ;;
  maxval <- Np.index bins (ilast + 1) ;;
  Ok (minval, maxval).

(** Line 169: [(tmod > minval) & (tmod < maxval)]; a NaN compares false. *)
Definition inside (minval maxval : Q) (t : option Q) : bool :=
  match t with
  | Some v => negb (Qle_bool v minval) && negb (Qle_bool maxval v)
  | None => false
  end.

(** State of the function after the two loops (line 152). *)
Record searched : Type := Searched {
  nbins : Z;
  best_period : Q;
  best_phase : Q;
  final_contents : option (list Z);
  final_bins : option (list Q)
}.

Definition period_mean_of (aprox_frequency : Q) : result Q :=
  if Qeq_bool aprox_frequency 0 then Raise ZeroDivisionError
  else Ok (1 / aprox_frequency).

Definition find_best (timestamps : list Q) (aprox_frequency : Q)
  : result searched :=
  period_mean <- period_mean_of aprox_frequency ;;
  let nbins := nbins_of timestamps in
  p <- period_search timestamps nbins period_mean ;;
  best_period <- not_none (best_hyp p) ;;
  ph <- phase_search timestamps nbins best_period p ;;
  Ok (Searched nbins best_period (best_hyp ph)
               (best_contents ph) (best_bins ph)).

Definition select_window (timestamps : list Q) (s : searched)
  : result (list bool) :=
  let tmod := phase_fold timestamps (best_period s) (best_phase s) in
  contents <- not_none (final_contents s) ;;
  bins <- not_none (final_bins s) ;;
  '(minval, maxval) <- window_edges contents bins ;;
  Ok (map (inside minval maxval) tmod).

Definition find_pedestals (timestamps : list Q) (aprox_frequency : Q)
  : result (list bool) :=
  s <- find_best timestamps aprox_frequency ;;
  select_window timestamps s.

(** ** The per-file body of [main] *)

(** A table column of floats: a value or NaN. *)
Inductive fval : Type :=
| NaN
| Num (q : Q).

Record event : Type := Event {
  event_id : Z;
  dragon_time : Q;
  intensity : fval;
  concentration_pixel : fval
}.

(** [x > c] and [x < c] against a constant; a NaN compares false. *)
Definition fgt (x : fval) (c : Q) : bool :=
  match x with
  | Num q => negb (Qle_bool q c)
  | NaN => false
  end.

Definition flt (x : fval) (c : Q) : bool :=
  match x with
  | Num q => negb (Qle_bool c q)
  | NaN => false
  end.

(** Lines 53-54. *)
Definition is_flatfield (e : event) : bool :=
  fgt (intensity e) 30000 && flt (concentration_pixel e) (5 # 1000).

(** Lines 45-47. *)
Definition approximate_frequency (run_number : Z) : Q :=
  if (2708 <? run_number)%Z then 100 else 50.

(** [a[mask]]: the entries of [a] where [mask] is true. *)
Fixpoint take_masked {A : Type} (a : list A) (mask : list bool) : list A :=
  match a, mask with
  | x :: a', b :: mask' =>
      if b then x :: take_masked a' mask' else take_masked a' mask'
  | _, _ => []
  end.

Fixpoint put_masked {A : Type} (a : list A) (mask : list bool) (vals : list A)
  : list A :=
  match a, mask with
  | x :: a', b :: mask' =>
      if b then
        match vals with
        | v :: vals' => v :: put_masked a' mask' vals'
        | [] => x :: put_masked a' mask' []
        end
      else x :: put_masked a' mask' vals
  | _, _ => a
  end.

Definition count_true (mask : list bool) : nat :=
  length (filter (fun b => b) mask).

(** [a[mask] = vals]: as many values as true entries, or one value that is
    repeated; anything else raises. *)
Definition assign_masked {A : Type} (a : list A) (mask : list bool)
           (vals : list A) : result (list A) :=
  if Nat.eqb (length vals) (count_true mask) then Ok (put_masked a mask vals)
  else match vals with
       | [v] => Ok (put_masked a mask (repeat v (count_true mask)))
       | _ => Raise ValueError
       end.

(** Lines 56-58: the mask over the candidates written back, flat-field
    events left [False]. *)
Definition scatter_candidates (table : list event) (run_number : Z)
  : result (list bool) :=
  let all_times := map dragon_time table in
  let ffmask := map is_flatfield table in
  let pedmask := repeat false (length table) in
  found <- find_pedestals (take_masked all_times (map negb ffmask))
                          (approximate_frequency run_number) ;;
  assign_masked pedmask (map negb ffmask) found.

(** Line 67. *)
Definition nan_to_zero (x : fval) : Q :=
  match x with
  | NaN => 0
  | Num q => q
  end.

(** [np.argsort]: the indices in ascending order of their values, as a
    stable insertion of the indices from the last to the first, so that
    equal values keep their original order. *)
Fixpoint insert_index (key : nat -> Q) (i : nat) (l : list nat) : list nat :=
  match l with
  | [] => [i]
  | j :: l' =>
      if Qle_bool (key i) (key j) then i :: l
      else j :: insert_index key i l'
  end.

Definition argsort (a : list Q) : list nat :=
  fold_right (insert_index (fun i => nth i a 0)) [] (seq 0 (length a)).

Fixpoint set_at {A : Type} (l : list A) (i : nat) (v : A) : list A :=
  match l, i with
  | [], _ => []
  | _ :: l', O => v :: l'
  | x :: l', S i' => x :: set_at l' i' v
  end.

(** [a[idx] = v] for an array of indices. *)
Definition clear_all (pedmask : list bool) (idx : list nat) : list bool :=
  fold_left (fun m i => set_at m i false) idx pedmask.

Definition removal_budget : nat := 10.

(** Lines 69-72: the likely pedestals, ordered from brightest to dimmest. *)
Definition remove_indices (intensities : list fval) (pedmask : list bool)
  : list nat :=
  let intensity := map nan_to_zero intensities in
  let decreasing_intensity_ordered_indices := rev (argsort intensity) in
  filter (fun i => nth i pedmask false) decreasing_intensity_ordered_indices.

(** Lines 65-73. *)
Definition remove_brightest (intensities : list fval) (pedmask : list bool)
  : list bool :=
  clear_all pedmask
            (firstn removal_budget (remove_indices intensities pedmask)).

(** Lines 49-73 for one file: the final [pedmask]. *)
Definition select_pedestals (table : list event) (run_number : Z)
  : result (list bool) :=
  pedmask <- scatter_candidates table run_number ;;
  Ok (remove_brightest (map intensity table) pedmask).

(** * Properties *)

(** ** Facts about the NumPy operations *)

Ltac break_if :=
  match goal with
  | |- context [if ?b then _ else _] => destruct b eqn:?
  | H : context [if ?b then _ else _] |- _ => destruct b eqn:?
  end.

Lemma bind_ok {A B : Type} (m : result A) (k : A -> result B) (b : B) :
  bind m k = Ok b -> exists a, m = Ok a /\ k a = Ok b.
Proof.
  destruct m as [a|e]; simpl; intros E; [exists a; auto | discriminate].
Qed.

Lemma fold_max_ge (l : list Z) (x : Z) : (x <= fold_left Z.max l x)%Z.
Proof.
  revert x; induction l as [|y l IH]; intros x; simpl; [lia|].
  specialize (IH (Z.max x y)); lia.
Qed.

Lemma fold_max_upper (l : list Z) (x : Z) :
  Forall (fun y => (y <= fold_left Z.max l x)%Z) l.
Proof.
  revert x; induction l as [|y l IH]; intros x; simpl; constructor.
  - pose proof (fold_max_ge l (Z.max x y)); lia.
  - apply IH.
Qed.

Lemma fold_max_in (l : list Z) (x : Z) :
  fold_left Z.max l x = x \/ In (fold_left Z.max l x) l.
Proof.
  revert x; induction l as [|y l IH]; intros x; simpl; [now left|].
  destruct (IH (Z.max x y)) as [E|E].
  - rewrite E. destruct (Z.max_spec x y) as [[_ ->]|[_ ->]]; auto.
  - auto.
Qed.

Lemma max_spec (l : list Z) (m : Z) :
  Np.max l = Ok m -> In m l /\ Forall (fun y => (y <= m)%Z) l.
Proof.
  destruct l as [|x l]; simpl; [discriminate|].
  intros E; injection E as <-. split.
  - destruct (fold_max_in l x) as [->|HI]; auto.
  - constructor; [apply fold_max_ge | apply fold_max_upper].
Qed.

Lemma max_total (l : list Z) : l <> [] -> exists m, Np.max l = Ok m.
Proof. destruct l; [congruence | simpl; eauto]. Qed.

Lemma max_nonneg (l : list Z) (m : Z) :
  Forall (fun y => (0 <= y)%Z) l -> Np.max l = Ok m -> (0 <= m)%Z.
Proof.
  intros HF E. apply max_spec in E as [HI _].
  rewrite Forall_forall in HF. auto.
Qed.

Lemma first_index_bounds (m : Z) (l : list Z) :
  In m l -> (0 <= Np.first_index m l < Z.of_nat (length l))%Z.
Proof.
  induction l as [|x l IH]; [simpl; tauto|].
  cbn [Np.first_index length In]. rewrite Nat2Z.inj_succ.
  intros HI. destruct (Z.eqb_spec x m) as [E|NE]; [lia|].
  destruct HI as [E|HI]; [congruence|]. specialize (IH HI). lia.
Qed.

Lemma linspace_length (a b : Q) (n : nat) : length (Np.linspace a b n) = n.
Proof.
  destruct n as [|[|n]]; simpl; auto.
  now rewrite length_map, length_seq.
Qed.

Lemma linspace_nth (a b : Q) (n k : nat) :
  (k < S (S n))%nat ->
  nth_error (Np.linspace a b (S (S n))) k =
  Some (a + inject_Z (Z.of_nat k) * ((b - a) / inject_Z (Z.of_nat (S n)))).
Proof.
  intros Hk. unfold Np.linspace.
  rewrite nth_error_map, nth_error_nth' with (d := O) by (rewrite length_seq; lia).
  rewrite seq_nth by lia. reflexivity.
Qed.

Lemma linspace_last (a b : Q) (n : nat) :
  exists x, nth_error (Np.linspace a b (S (S n))) (S n) = Some x /\ x == b.
Proof.
  eexists. split; [apply linspace_nth; lia|].
  assert (H : ~ inject_Z (Z.of_nat (S n)) == 0).
  { intros E. unfold Qeq, inject_Z in E. simpl in E. lia. }
  field. exact H.
Qed.

Lemma histogram_inv (a : list (option Q)) (bins : Z) (range : Q * Q)
      (contents : list Z) (edges : list Q) :
  Np.histogram a bins range = Ok (contents, edges) ->
  (1 <= bins)%Z /\ fst range <= snd range /\
  let lo := fst (Np.outer_edges (fst range) (snd range)) in
  let hi := snd (Np.outer_edges (fst range) (snd range)) in
  contents = map (Np.count_bin lo hi bins (flat_map (Np.in_range lo hi) a))
                 (map Z.of_nat (seq 0 (Z.to_nat bins))) /\
  edges = Np.linspace lo hi (S (Z.to_nat bins)).
Proof.
  unfold Np.histogram. destruct (Z.ltb_spec bins 1); [discriminate|].
  destruct (Qle_bool (fst range) (snd range)) eqn:L; [|discriminate].
  intros E. injection E as E1 E2. apply Qle_bool_iff in L.
  repeat split; auto; lia.
Qed.

Section HistogramFacts.

Variables (a : list (option Q)) (bins : Z) (range : Q * Q).
Variables (contents : list Z) (edges : list Q).
Hypothesis E : Np.histogram a bins range = Ok (contents, edges).

Lemma histogram_bins_pos : (1 <= bins)%Z.
Proof. apply (histogram_inv _ _ _ _ _ E). Qed.

Lemma histogram_range_ordered : fst range <= snd range.
Proof. apply (histogram_inv _ _ _ _ _ E). Qed.

Lemma histogram_contents_length : Z.of_nat (length contents) = bins.
Proof.
  destruct (histogram_inv _ _ _ _ _ E) as (Hb & _ & -> & _).
  rewrite !length_map, length_seq. lia.
Qed.

Lemma histogram_contents_nonneg : Forall (fun c => (0 <= c)%Z) contents.
Proof.
  destruct (histogram_inv _ _ _ _ _ E) as (Hb & _ & -> & _).
  apply Forall_forall. intros c HI.
  apply in_map_iff in HI as (k & <- & _). unfold Np.count_bin. lia.
Qed.

Lemma histogram_contents_nonempty : contents <> [].
Proof.
  pose proof histogram_bins_pos. pose proof histogram_contents_length.
  destruct contents; simpl in *; [lia | congruence].
Qed.

Lemma histogram_edges_length : Z.of_nat (length edges) = (bins + 1)%Z.
Proof.
  destruct (histogram_inv _ _ _ _ _ E) as (Hb & _ & _ & ->).
  rewrite linspace_length. lia.
Qed.

(** With a proper range the edges are the [bins + 1] points of
    [linspace] over it. *)
Lemma histogram_edges : fst range < snd range ->
  edges = Np.linspace (fst range) (snd range) (S (Z.to_nat bins)).
Proof.
  intros L. destruct (histogram_inv _ _ _ _ _ E) as (Hb & _ & _ & ->).
  unfold Np.outer_edges.
  destruct (Qeq_bool (fst range) (snd range)) eqn:Q0; [|reflexivity].
  apply Qeq_bool_iff in Q0. rewrite Q0 in L. now apply Qlt_irrefl in L.
Qed.

End HistogramFacts.

Lemma histogram_total (a : list (option Q)) (bins : Z) (lo hi : Q) :
  (1 <= bins)%Z -> lo <= hi ->
  exists contents edges, Np.histogram a bins (lo, hi) = Ok (contents, edges).
Proof.
  intros Hb Hr. unfold Np.histogram.
  destruct (Z.ltb_spec bins 1); [lia|].
  apply Qle_bool_iff in Hr. simpl fst; simpl snd. rewrite Hr. eauto.
Qed.

Lemma histogram_no_bins (a : list (option Q)) (bins : Z) (range : Q * Q) :
  (bins < 1)%Z -> Np.histogram a bins range = Raise ValueError.
Proof.
  intros Hb. unfold Np.histogram. destruct (Z.ltb_spec bins 1); [reflexivity | lia].
Qed.

(** ** The grid search: which hypothesis is the best at the end *)

Section GridSearchFacts.

Context {H : Type}.
Variable hist : Q -> result (list Z * list Q).
Variable record : Q -> H.

(** Peak of the histogram of hypothesis [h]. *)
Definition peak_of (h : Q) : result Z :=
  '(contents, _) <- hist h ;; Np.max contents.

Definition peak_below (m : Z) (h : Q) : Prop :=
  exists pk, peak_of h = Ok pk /\ (pk < m)%Z.

Definition peak_at_most (m : Z) (h : Q) : Prop :=
  exists pk, peak_of h = Ok pk /\ (pk <= m)%Z.

(** [st] holds hypothesis [h] of the grid, with its histogram and peak. *)
Definition holds (st : best H) (h : Q) : Prop :=
  exists contents bins,
    hist h = Ok (contents, bins) /\
    Np.max contents = Ok (max_peak st) /\
    st = Best (max_peak st) (record h) (Some contents) (Some bins).

(** The best is the LAST hypothesis of the grid that reaches the highest
    peak: nothing before it is higher, everything after it is lower. *)
Definition later_wins_ties (grid : list Q) (st : best H) : Prop :=
  exists l1 h l2,
    grid = l1 ++ h :: l2 /\ holds st h /\
    Forall (peak_at_most (max_peak st)) l1 /\
    Forall (peak_below (max_peak st)) l2.

(** The best is the FIRST hypothesis of the grid that reaches the highest
    peak: everything before it is lower, nothing after it is higher. *)
Definition earlier_wins_ties (grid : list Q) (st : best H) : Prop :=
  exists l1 h l2,
    grid = l1 ++ h :: l2 /\ holds st h /\
    Forall (peak_below (max_peak st)) l1 /\
    Forall (peak_at_most (max_peak st)) l2.

(** The body replaces the best exactly when the new peak is not below
    [max_peak]. *)
Definition replaces_unless_lower : Prop :=
  forall (st : best H) (h : Q) contents bins pk,
    hist h = Ok (contents, bins) -> Np.max contents = Ok pk ->
    search_body hist record st h =
    Ok (if (max_peak st <=? pk)%Z
        then Best pk (record h) (Some contents) (Some bins)
        else st).

Lemma search_body_replaces : replaces_unless_lower.
Proof.
  intros st h contents bins pk Eh Em. unfold search_body.
  rewrite Eh. simpl. rewrite Em. simpl.
  destruct (Z.ltb_spec pk (max_peak st)), (Z.leb_spec (max_peak st) pk);
    try lia; reflexivity.
Qed.

Lemma search_body_inv (st st' : best H) (h : Q) :
  search_body hist record st h = Ok st' ->
  exists contents bins pk,
    hist h = Ok (contents, bins) /\ Np.max contents = Ok pk /\
    ((pk < max_peak st)%Z /\ st' = st \/
     (max_peak st <= pk)%Z /\
     st' = Best pk (record h) (Some contents) (Some bins)).
Proof.
  unfold search_body. intros E.
  apply bind_ok in E as ([contents bins] & Eh & E).
  apply bind_ok in E as (pk & Em & E).
  exists contents, bins, pk. repeat split; auto.
  destruct (Z.ltb_spec pk (max_peak st)); injection E as <-; auto.
Qed.

Lemma peak_of_eq (h : Q) contents bins pk :
  hist h = Ok (contents, bins) -> Np.max contents = Ok pk ->
  peak_of h = Ok pk.
Proof. intros Eh Em. unfold peak_of. now rewrite Eh. Qed.

Lemma Forall_peak_below_mono (m m' : Z) (l : list Q) :
  (m <= m')%Z -> Forall (peak_below m) l -> Forall (peak_below m') l.
Proof.
  intros Hm. apply Forall_impl. intros h (pk & E & L). exists pk. split; [auto|lia].
Qed.

Lemma Forall_peak_at_most_mono (m m' : Z) (l : list Q) :
  (m <= m')%Z -> Forall (peak_at_most m) l -> Forall (peak_at_most m') l.
Proof.
  intros Hm. apply Forall_impl. intros h (pk & E & L). exists pk. split; [auto|lia].
Qed.

(** Either no hypothesis of the grid reached [max_peak] and the state is
    untouched, or the last of the highest took it. *)
Lemma search_last_max (grid : list Q) : forall st0 st,
  search hist record grid st0 = Ok st ->
  (st = st0 /\ Forall (peak_below (max_peak st0)) grid) \/
  ((max_peak st0 <= max_peak st)%Z /\ later_wins_ties grid st).
Proof.
  induction grid as [|h grid IH]; intros st0 st E; simpl in E.
  - injection E as <-. left. auto.
  - apply bind_ok in E as (st1 & Eb & Es).
    apply search_body_inv in Eb as (contents & bins & pk & Eh & Em & Hcase).
    pose proof (peak_of_eq _ _ _ _ Eh Em) as Ep.
    destruct (IH _ _ Es) as [[-> HF] | [Hle (l1 & h' & l2 & -> & Hh & H1 & H2)]].
    + destruct Hcase as [[Hlt ->] | [Hge ->]].
      * left. split; auto. constructor; auto. exists pk; auto.
      * right. simpl. split; auto.
        exists [], h, grid. simpl. repeat split; auto.
        exists contents, bins. simpl. auto.
    + right. assert (Hpk : (pk <= max_peak st1)%Z /\ (max_peak st0 <= max_peak st1)%Z).
      { destruct Hcase as [[Hlt ->] | [Hge ->]]; simpl; lia. }
      split; [lia|].
      exists (h :: l1), h', l2. simpl. repeat split; auto.
      constructor; auto. exists pk. split; [auto|lia].
Qed.

(** When no peak is negative and the search starts from [max_peak = 0]
    on a grid that is not empty, the best is always replaced. *)
Lemma search_from_zero (grid : list Q) (st0 st : best H) :
  (forall h pk, peak_of h = Ok pk -> (0 <= pk)%Z) ->
  max_peak st0 = 0%Z -> grid <> [] ->
  search hist record grid st0 = Ok st ->
  later_wins_ties grid st.
Proof.
  intros Hnn H0 Hne E.
  destruct (search_last_max _ _ _ E) as [[_ HF] | [_ HL]]; auto.
  destruct grid as [|h grid]; [congruence|].
  inversion HF as [|? ? (pk & Ep & Hlt) _]; subst.
  apply Hnn in Ep. lia.
Qed.

End GridSearchFacts.

(** ** The two loops of [find_pedestals] *)

Lemma histogram_peak_nonneg a bins range contents edges pk :
  Np.histogram a bins range = Ok (contents, edges) ->
  Np.max contents = Ok pk -> (0 <= pk)%Z.
Proof.
  intros E Em. eapply max_nonneg; [|exact Em].
  eapply histogram_contents_nonneg; eauto.
Qed.

Lemma period_peak_nonneg timestamps nbins period_mean h pk :
  peak_of (period_hist timestamps nbins period_mean) h = Ok pk -> (0 <= pk)%Z.
Proof.
  unfold peak_of. intros E. apply bind_ok in E as ([c b] & Eh & Em).
  eapply histogram_peak_nonneg; eauto.
Qed.

Lemma phase_peak_nonneg timestamps nbins bp h pk :
  peak_of (phase_hist timestamps nbins bp) h = Ok pk -> (0 <= pk)%Z.
Proof.
  unfold peak_of. intros E. apply bind_ok in E as ([c b] & Eh & Em).
  eapply histogram_peak_nonneg; eauto.
Qed.

Lemma period_step_range_nonempty : period_step_range <> [].
Proof.
  intros E. apply (f_equal (@length Q)) in E.
  unfold period_step_range in E. rewrite linspace_length in E. discriminate.
Qed.

Lemma phase_grid_nonempty (bp : Q) : phase_grid bp <> [].
Proof.
  intros E. apply (f_equal (@length Q)) in E.
  unfold phase_grid in E. rewrite linspace_length in E. discriminate.
Qed.

Lemma period_search_last_max timestamps nbins period_mean p :
  period_search timestamps nbins period_mean = Ok p ->
  later_wins_ties (period_hist timestamps nbins period_mean)
                  (fun i => Some (trial_period period_mean i))
                  period_step_range p.
Proof.
  apply search_from_zero; auto using period_step_range_nonempty.
  intros h pk. apply period_peak_nonneg.
Qed.

Lemma phase_search_last_max timestamps nbins bp from ph :
  phase_search timestamps nbins bp from = Ok ph ->
  later_wins_ties (phase_hist timestamps nbins bp) (fun phase => phase)
                  (phase_grid bp) ph.
Proof.
  apply search_from_zero; auto using phase_grid_nonempty.
  intros h pk. apply phase_peak_nonneg.
Qed.

Lemma later_wins_holds {H : Type} hist (record : Q -> H) grid st :
  later_wins_ties hist record grid st ->
  exists h, In h grid /\ holds hist record st h.
Proof.
  intros (l1 & h & l2 & -> & Hh & _). exists h. split; auto.
  apply in_or_app. right. now left.
Qed.

(** A search whose histograms all succeed returns. *)
Lemma search_total {H : Type} hist (record : Q -> H) (grid : list Q) :
  (forall h, In h grid -> exists contents bins,
       hist h = Ok (contents, bins) /\ contents <> []) ->
  forall st0, exists st, search hist record grid st0 = Ok st.
Proof.
  induction grid as [|h grid IH]; intros Hall st0; simpl; eauto.
  destruct (Hall h (or_introl eq_refl)) as (c & b & Eh & Hne).
  destruct (max_total c Hne) as (pk & Em).
  rewrite (search_body_replaces hist record st0 h c b pk Eh Em). simpl.
  apply IH. intros h' HI. apply Hall. now right.
Qed.

Lemma period_search_total timestamps nbins period_mean :
  (1 <= nbins)%Z -> 0 <= period_mean ->
  exists p, period_search timestamps nbins period_mean = Ok p.
Proof.
  intros Hb Hp. apply search_total. intros h _.
  destruct (histogram_total
              (map (fun t => Np.mod_ t (trial_period period_mean h)) timestamps)
              nbins 0 period_mean Hb Hp) as (c & b & E).
  exists c, b. split; auto. eapply histogram_contents_nonempty; eauto.
Qed.

Lemma phase_search_total timestamps nbins bp from :
  (1 <= nbins)%Z -> 0 <= bp ->
  exists ph, phase_search timestamps nbins bp from = Ok ph.
Proof.
  intros Hb Hp. apply search_total. intros h _.
  destruct (histogram_total (phase_fold timestamps bp h) nbins 0 bp Hb Hp)
    as (c & b & E).
  exists c, b. split; auto. eapply histogram_contents_nonempty; eauto.
Qed.

Lemma period_steps_from_minus_50 :
  forall i, In i period_step_range -> -50 <= i.
Proof.
  assert (E : forallb (fun i => Qle_bool (-50) i) period_step_range = true)
    by (vm_compute; reflexivity).
  intros i HI. rewrite forallb_forall in E. apply Qle_bool_iff. auto.
Qed.

Lemma nbins_of_pos (timestamps : list Q) :
  timestamps <> [] -> (1 <= nbins_of timestamps)%Z.
Proof.
  unfold nbins_of, average_nevents_per_bin. rewrite Z.div_1_r.
  destruct timestamps; [congruence | simpl length; lia].
Qed.

Lemma nbins_of_small (timestamps : list Q) :
  (nbins_of timestamps < 1)%Z -> timestamps = [].
Proof.
  unfold nbins_of, average_nevents_per_bin. rewrite Z.div_1_r.
  destruct timestamps; [auto | simpl length; lia].
Qed.

(** ** Tie-break of the two grid searches *)

(** C1 (as amended): in the period loop and in the phase loop the body
    replaces the running best exactly when the new peak is not below
    [max_peak] (it is kept only when the new peak is strictly lower), so
    at the end the best is the last hypothesis of the grid, in scan order,
    that reaches the highest peak: on equal peaks the later hypothesis
    wins. *)
Theorem later_hypothesis_wins_ties (timestamps : list Q) (nbins : Z) :
  (forall period_mean,
      replaces_unless_lower (period_hist timestamps nbins period_mean)
                            (fun i => Some (trial_period period_mean i)) /\
      forall p, period_search timestamps nbins period_mean = Ok p ->
                later_wins_ties (period_hist timestamps nbins period_mean)
                                (fun i => Some (trial_period period_mean i))
                                period_step_range p) /\
  (forall bp from,
      replaces_unless_lower (phase_hist timestamps nbins bp)
                            (fun phase => phase) /\
      forall ph, phase_search timestamps nbins bp from = Ok ph ->
                 later_wins_ties (phase_hist timestamps nbins bp)
                                 (fun phase => phase) (phase_grid bp) ph).
Proof.
  split; intros; (split; [apply search_body_replaces|]).
  - apply period_search_last_max.
  - apply phase_search_last_max.
Qed.

Lemma later_hypothesis_wins_ties_witness :
  exists p, period_search [0] 1 (1 # 50) = Ok p /\
            later_wins_ties (period_hist [0] 1 (1 # 50))
                            (fun i => Some (trial_period (1 # 50) i))
                            period_step_range p.
Proof.
  eexists. split.
  - vm_compute. reflexivity.
  - apply (proj2 (proj1 (later_hypothesis_wins_ties [0] 1) (1 # 50))).
    vm_compute. reflexivity.
Defined.

(** C1 as stated fails: with the single timestamp [0] every trial period
    has peak 1, and the period loop ends on the last period of the grid,
    not on the first. *)
Lemma earlier_hypothesis_loses_ties :
  exists p, period_search [0] 1 (1 # 50) = Ok p /\
            ~ earlier_wins_ties (period_hist [0] 1 (1 # 50))
                                (fun i => Some (trial_period (1 # 50) i))
                                period_step_range p.
Proof.
  eexists. split; [vm_compute; reflexivity|].
  intros (l1 & h & l2 & Hg & (c & b & _ & _ & Hst) & H1 & _).
  destruct l1 as [|j l1].
  - vm_compute in Hg. injection Hg as <- _.
    apply (f_equal best_hyp) in Hst. vm_compute in Hst. discriminate.
  - vm_compute in Hg. injection Hg as <- _.
    inversion H1 as [|? ? (pk & Ep & Hlt) _]; subst.
    vm_compute in Ep. injection Ep as <-. vm_compute in Hlt. discriminate.
Qed.

(** ** Too few candidates *)

(** C6: when the number of bins is below 1 the first histogram of the
    period loop raises [ValueError]; [find_pedestals] and the per-file body
    of [main] end with that error and return no mask. *)
Theorem no_bins_is_value_error (timestamps : list Q) :
  (nbins_of timestamps < 1)%Z ->
  (forall period_mean,
      period_search timestamps (nbins_of timestamps) period_mean
      = Raise ValueError) /\
  (forall aprox_frequency, ~ aprox_frequency == 0 ->
      find_pedestals timestamps aprox_frequency = Raise ValueError) /\
  (forall table run_number,
      take_masked (map dragon_time table)
                  (map negb (map is_flatfield table)) = timestamps ->
      select_pedestals table run_number = Raise ValueError).
Proof.
  intros Hb.
  assert (HP : forall period_mean,
             period_search timestamps (nbins_of timestamps) period_mean
             = Raise ValueError).
  { intros pm. unfold period_search.
    destruct period_step_range as [|h rest] eqn:Eg.
    - destruct (period_step_range_nonempty Eg).
    - simpl. unfold search_body, period_hist.
      now rewrite histogram_no_bins. }
  assert (HF : forall f, ~ f == 0 ->
             find_pedestals timestamps f = Raise ValueError).
  { intros f Hf. unfold find_pedestals, find_best, period_mean_of.
    destruct (Qeq_bool f 0) eqn:E0; [apply Qeq_bool_iff in E0; tauto|].
    simpl. now rewrite HP. }
  repeat split; auto.
  intros table run_number <-. unfold select_pedestals, scatter_candidates.
  rewrite HF; [reflexivity|].
  unfold approximate_frequency. destruct (2708 <? run_number)%Z; discriminate.
Qed.

Lemma no_bins_is_value_error_witness :
  find_pedestals [] 50 = Raise ValueError /\
  select_pedestals [Event 7 0 (Num 40000) (Num 0)] 2709 = Raise ValueError.
Proof.
  assert (Hb : (nbins_of [] < 1)%Z) by (vm_compute; reflexivity).
  destruct (no_bins_is_value_error [] Hb) as (_ & HF & HS). split.
  - apply HF. discriminate.
  - apply HS. reflexivity.
Defined.

(** ** The phase grid *)

(** C7 (as amended): the trial phases are the 1000 points
    [k * best_period / 999], [k = 0 .. 999], of the closed interval
    [[0, best_period]]; the last trial phase is [best_period] itself. *)
Theorem phase_grid_is_closed (bp : Q) :
  length (phase_grid bp) = 1000%nat /\
  (forall k, (k < 1000)%nat ->
     nth_error (phase_grid bp) k =
     Some (0 + inject_Z (Z.of_nat k) * ((bp - 0) / 999))) /\
  (exists last, nth_error (phase_grid bp) 999 = Some last /\ last == bp) /\
  (0 <= bp -> forall phase, In phase (phase_grid bp) -> 0 <= phase <= bp).
Proof.
  unfold phase_grid, steps.
  split; [apply linspace_length|].
  split; [intros k Hk; now rewrite linspace_nth|].
  split; [apply linspace_last|].
  intros Hbp phase HI.
  destruct (In_nth_error _ _ HI) as (k & Ek).
  assert (Hk : (k < 1000)%nat).
  { rewrite <- (linspace_length 0 bp 1000). apply nth_error_Some. congruence. }
  rewrite linspace_nth in Ek by exact Hk. injection Ek as <-.
  assert (Hk0 : 0 <= inject_Z (Z.of_nat k)).
  { change 0 with (inject_Z 0). rewrite <- Zle_Qle. lia. }
  assert (Hk1 : inject_Z (Z.of_nat k) <= 999).
  { change 999 with (inject_Z 999). rewrite <- Zle_Qle. lia. }
  change (inject_Z (Z.of_nat 999)) with 999.
  setoid_replace (0 + inject_Z (Z.of_nat k) * ((bp - 0) / 999))
    with (bp * (inject_Z (Z.of_nat k) / 999)) by field.
  assert (Hf0 : 0 <= inject_Z (Z.of_nat k) / 999).
  { apply Qle_shift_div_l; [reflexivity|]. now rewrite Qmult_0_l. }
  assert (Hf1 : inject_Z (Z.of_nat k) / 999 <= 1).
  { apply Qle_shift_div_r; [reflexivity|]. now rewrite Qmult_1_l. }
  split.
  - now apply Qmult_le_0_compat.
  - rewrite <- (Qmult_1_r bp) at 2.
    apply Qmult_le_compat_nonneg; split; auto; apply Qle_refl.
Qed.

Lemma phase_grid_is_closed_witness :
  nth_error (phase_grid (1 # 50)) 3 = Some (0 + 3 * (((1 # 50) - 0) / 999)) /\
  (forall phase, In phase (phase_grid (1 # 50)) -> 0 <= phase <= 1 # 50).
Proof.
  destruct (phase_grid_is_closed (1 # 50)) as (_ & Hnth & _ & Hin). split.
  - apply (Hnth 3%nat). lia.
  - apply Hin. discriminate.
Defined.

(** C7 as stated fails: the last trial phase is [best_period], which is
    not below [best_period]. *)
Lemma best_period_is_tried :
  exists s, find_best [0] 50 = Ok s /\
    ~ (forall phase, In phase (phase_grid (best_period s)) ->
                     0 <= phase /\ phase < best_period s).
Proof.
  eexists. split; [vm_compute; reflexivity|].
  intros Hc. cbn [best_period] in Hc.
  match type of Hc with
  | forall phase, In phase (phase_grid ?bp) -> _ =>
      destruct (linspace_last 0 bp 998) as (x & Ex & Hx)
  end.
  apply nth_error_In in Ex. apply Hc in Ex as [_ Hlt].
  rewrite Hx in Hlt. exact (Qlt_irrefl _ Hlt).
Qed.

(** ** The running best is set before it is used *)

Lemma holds_some {H : Type} hist (record : Q -> H) st h :
  holds hist record st h ->
  best_hyp st = record h /\ best_contents st <> None /\ best_bins st <> None.
Proof.
  intros (c & b & _ & _ & ->). simpl. repeat split; discriminate.
Qed.

Lemma find_best_inv timestamps aprox_frequency s :
  find_best timestamps aprox_frequency = Ok s ->
  exists period_mean p ph,
    period_mean_of aprox_frequency = Ok period_mean /\
    period_search timestamps (nbins_of timestamps) period_mean = Ok p /\
    best_hyp p = Some (best_period s) /\
    phase_search timestamps (nbins_of timestamps) (best_period s) p = Ok ph /\
    s = Searched (nbins_of timestamps) (best_period s) (best_hyp ph)
                 (best_contents ph) (best_bins ph).
Proof.
  unfold find_best. intros E.
  apply bind_ok in E as (pm & Epm & E).
  apply bind_ok in E as (p & Ep & E).
  apply bind_ok in E as (bp & Ebp & E).
  apply bind_ok in E as (ph & Eph & E).
  injection E as <-. simpl.
  exists pm, p, ph. repeat split; auto.
  destruct (best_hyp p); [injection Ebp as ->; auto | discriminate].
Qed.

Lemma find_best_total timestamps aprox_frequency :
  timestamps <> [] -> 0 < aprox_frequency -> aprox_frequency <= 200000 ->
  exists s, find_best timestamps aprox_frequency = Ok s.
Proof.
  intros Hne Hf0 Hf1. pose proof (nbins_of_pos _ Hne) as Hb.
  unfold find_best, period_mean_of.
  destruct (Qeq_bool aprox_frequency 0) eqn:E0.
  { apply Qeq_bool_iff in E0. rewrite E0 in Hf0. now apply Qlt_irrefl in Hf0. }
  simpl.
  assert (Hpm : (1 # 200000) <= 1 / aprox_frequency).
  { apply Qle_shift_div_l; [exact Hf0|].
    apply Qmult_le_l with (z := 200000); [reflexivity|].
    now ring_simplify. }
  destruct (period_search_total timestamps (nbins_of timestamps)
              (1 / aprox_frequency) Hb) as (p & Ep).
  { eapply Qle_trans; [|exact Hpm]. discriminate. }
  rewrite Ep. simpl.
  destruct (later_wins_holds _ _ _ _ (period_search_last_max _ _ _ _ Ep))
    as (i & Hi & Hh).
  apply holds_some in Hh as (-> & _). simpl.
  apply period_steps_from_minus_50 in Hi.
  destruct (phase_search_total timestamps (nbins_of timestamps)
              (trial_period (1 / aprox_frequency) i) p Hb) as (ph & Eph).
  { unfold trial_period, period_step_width.
    apply Qle_trans with ((1 # 200000) + (-50) * (1 # 10000000)); [discriminate|].
    apply Qplus_le_compat; [exact Hpm|].
    apply Qmult_le_compat_r; [exact Hi | discriminate]. }
  rewrite Eph. simpl. eauto.
Qed.

(** C10: in the period loop the first pass through the body, from the
    initial [max_peak = 0], is never skipped: whenever its histogram is
    built the best is replaced by the first trial period (and with at
    least one bin and a non-negative mean period it is built).  Hence
    [best_period], [best_contents] and [best_bins] are not [None] after the
    period loop, and [best_contents] and [best_bins] are not [None] when
    the window selector reads them; for the frequencies of the script the
    two loops do return. *)
Theorem first_iteration_sets_best (timestamps : list Q) :
  timestamps <> [] -> (1 <= nbins_of timestamps)%Z ->
  let nbins := nbins_of timestamps in
  let init := Best 0%Z (@None Q) None None in
  (forall period_mean first rest,
      period_step_range = first :: rest ->
      let body := search_body (period_hist timestamps nbins period_mean)
                              (fun i => Some (trial_period period_mean i))
                              init first in
      (forall st, body = Ok st ->
                  best_hyp st = Some (trial_period period_mean first) /\
                  best_contents st <> None /\ best_bins st <> None) /\
      (0 <= period_mean -> exists st, body = Ok st)) /\
  (forall period_mean p,
      period_search timestamps nbins period_mean = Ok p ->
      best_hyp p <> None /\ best_contents p <> None /\ best_bins p <> None) /\
  (forall aprox_frequency s,
      find_best timestamps aprox_frequency = Ok s ->
      final_contents s <> None /\ final_bins s <> None) /\
  (forall aprox_frequency,
      0 < aprox_frequency -> aprox_frequency <= 200000 ->
      exists s, find_best timestamps aprox_frequency = Ok s).
Proof.
  intros Hne Hb nbins init. repeat apply conj.
  - intros pm first rest Eg body. split.
    + intros st E. apply search_body_inv in E
        as (c & b & pk & Eh & Em & [[Hlt _] | [_ ->]]).
      * pose proof (histogram_peak_nonneg _ _ _ _ _ _ Eh Em). simpl in Hlt. lia.
      * simpl. repeat split; discriminate.
    + intros Hpm.
      destruct (histogram_total
                  (map (fun t => Np.mod_ t (trial_period pm first)) timestamps)
                  nbins 0 pm Hb Hpm) as (c & b & E).
      destruct (max_total c (histogram_contents_nonempty _ _ _ _ _ E))
        as (pk & Em).
      eexists. subst body.
      apply (search_body_replaces _ _ init first c b pk E Em).
  - intros pm p Ep.
    destruct (later_wins_holds _ _ _ _ (period_search_last_max _ _ _ _ Ep))
      as (i & _ & Hh).
    apply holds_some in Hh as (-> & Hc & Hbs). repeat split; auto. discriminate.
  - intros f s Es.
    apply find_best_inv in Es as (pm & p & ph & _ & _ & _ & Eph & ->). simpl.
    destruct (later_wins_holds _ _ _ _ (phase_search_last_max _ _ _ _ _ Eph))
      as (i & _ & Hh).
    apply holds_some in Hh as (_ & Hc & Hbs). auto.
  - intros f. now apply find_best_total.
Qed.

Lemma first_iteration_sets_best_witness :
  exists s, find_best [1 # 100; 1 # 100; 1 # 1000] 50 = Ok s /\
            final_contents s <> None /\ final_bins s <> None.
Proof.
  assert (Hne : [1 # 100; 1 # 100; 1 # 1000] <> []) by discriminate.
  assert (Hb : (1 <= nbins_of [1 # 100; 1 # 100; 1 # 1000])%Z)
    by (vm_compute; discriminate).
  destruct (first_iteration_sets_best _ Hne Hb) as (_ & _ & Hwin & Htot).
  destruct (Htot 50) as (s & Es); [reflexivity | discriminate |].
  exists s. split; [exact Es | exact (Hwin 50 s Es)].
Defined.

(** ** The histogram of the period loop *)

Definition sumZ (l : list Z) : Z := fold_right Z.add 0%Z l.

Lemma in_range_inv (lo hi : Q) (t : option Q) (x : Q) :
  In x (Np.in_range lo hi t) -> t = Some x /\ lo <= x /\ x <= hi.
Proof.
  destruct t as [v|]; simpl; [|tauto].
  destruct (Qle_bool lo v) eqn:L1; simpl; [|tauto].
  destruct (Qle_bool v hi) eqn:L2; simpl; [|tauto].
  intros [<-|[]]. apply Qle_bool_iff in L1, L2. auto.
Qed.

Lemma in_range_above (lo hi v : Q) : hi < v -> Np.in_range lo hi (Some v) = [].
Proof.
  intros L. simpl. destruct (Qle_bool v hi) eqn:L2.
  - apply Qle_bool_iff in L2. destruct (Qlt_not_le _ _ L L2).
  - now rewrite andb_false_r.
Qed.

Lemma kept_in_range (lo hi : Q) (a : list (option Q)) (x : Q) :
  In x (flat_map (Np.in_range lo hi) a) -> lo <= x /\ x <= hi.
Proof.
  intros HI. apply in_flat_map in HI as (t & _ & HI).
  now apply in_range_inv in HI.
Qed.

(** Every value of the range falls in one of the [n] bins. *)
Lemma bin_index_bounds (lo hi : Q) (n : Z) (x : Q) :
  lo < hi -> (1 <= n)%Z -> lo <= x -> x <= hi ->
  (0 <= Np.bin_index lo hi n x < n)%Z.
Proof.
  intros Hr Hn Hlo Hhi. unfold Np.bin_index.
  destruct (Qeq_bool x hi) eqn:Ex; [lia|].
  assert (Hx : x < hi).
  { apply Qle_lteq in Hhi as [L|L]; [exact L|].
    apply Qeq_bool_iff in L. congruence. }
  assert (Hw : 0 < hi - lo) by (now apply (proj1 (Qlt_minus_iff lo hi))).
  assert (Hn0 : 0 < inject_Z n).
  { change 0 with (inject_Z 0). rewrite <- Zlt_Qlt. lia. }
  set (y := (x - lo) / (hi - lo) * inject_Z n).
  assert (Hy0 : 0 <= y).
  { unfold y. apply Qmult_le_0_compat; [|now apply Qlt_le_weak].
    apply Qle_shift_div_l; [exact Hw|]. rewrite Qmult_0_l.
    now apply (proj1 (Qle_minus_iff lo x)). }
  assert (Hy1 : y < inject_Z n).
  { unfold y. rewrite <- (Qmult_1_l (inject_Z n)) at 2.
    apply Qmult_lt_compat_r; [exact Hn0|].
    apply Qlt_shift_div_r; [exact Hw|]. rewrite Qmult_1_l.
    apply Qplus_lt_l with (z := lo). now ring_simplify. }
  split.
  - apply Qfloor_resp_le in Hy0. exact Hy0.
  - rewrite Zlt_Qlt. eapply Qle_lt_trans; [apply Qfloor_le | exact Hy1].
Qed.

Lemma sum_indicator (m : Z) (len start : nat) :
  sumZ (map (fun k => if (m =? k)%Z then 1%Z else 0%Z)
            (map Z.of_nat (seq start len))) =
  if ((Z.of_nat start <=? m) && (m <? Z.of_nat (start + len)))%Z
  then 1%Z else 0%Z.
Proof.
  revert start. induction len as [|len IH]; intros start.
  - simpl. rewrite Nat.add_0_r.
    destruct (Z.leb_spec (Z.of_nat start) m), (Z.ltb_spec m (Z.of_nat start));
      simpl; auto; lia.
  - cbn [seq map sumZ fold_right]. fold (sumZ (map (fun k => if (m =? k)%Z then 1%Z else 0%Z)
            (map Z.of_nat (seq (S start) len)))).
    rewrite IH.
    destruct (Z.eqb_spec m (Z.of_nat start)),
      (Z.leb_spec (Z.of_nat (S start)) m), (Z.ltb_spec m (Z.of_nat (S start + len))),
      (Z.leb_spec (Z.of_nat start) m), (Z.ltb_spec m (Z.of_nat (start + S len)));
      simpl; lia.
Qed.

Lemma sumZ_add (f g : Z -> Z) (l : list Z) :
  sumZ (map (fun k => (f k + g k)%Z) l) = (sumZ (map f l) + sumZ (map g l))%Z.
Proof. induction l as [|k l IH]; simpl; lia. Qed.

(** The counts of the bins add up to the number of values kept. *)
Lemma counts_add_up (f : Q -> Z) (n : Z) (kept : list Q) :
  (forall x, In x kept -> (0 <= f x < n)%Z) ->
  sumZ (map (fun k => Z.of_nat (length (filter (fun x => (f x =? k)%Z) kept)))
            (map Z.of_nat (seq 0 (Z.to_nat n)))) =
  Z.of_nat (length kept).
Proof.
  induction kept as [|x kept IH]; intros Hall.
  - simpl. induction (map Z.of_nat (seq 0 (Z.to_nat n))); simpl; lia.
  - rewrite map_ext with
      (g := fun k => ((if (f x =? k)%Z then 1 else 0) +
                      Z.of_nat (length (filter (fun x => (f x =? k)%Z) kept)))%Z).
    + rewrite sumZ_add, sum_indicator, IH by (intros y HI; apply Hall; now right).
      specialize (Hall x (or_introl eq_refl)).
      destruct (Z.leb_spec (Z.of_nat 0) (f x)),
        (Z.ltb_spec (f x) (Z.of_nat (0 + Z.to_nat n))); simpl length; simpl andb; lia.
    + intros k. simpl filter. destruct (f x =? k)%Z; simpl length; lia.
Qed.

(** The histogram the claim describes: over [(0, P_i)], the range of the
    fold. *)
Definition histogram_over_trial_period (timestamps : list Q) (nbins : Z)
           (period_mean i : Q) : result (list Z * list Q) :=
  let tmod := map (fun t => Np.mod_ t (trial_period period_mean i)) timestamps in
  Np.histogram tmod nbins (0, trial_period period_mean i).

(** C2 (as amended): for every trial period the folded timestamps are
    histogrammed with [nbins] equal-width bins over the fixed range
    [[0, period_mean]] of the nominal period: the edges are
    [k * period_mean / nbins] whatever the hypothesis, the counts add up to
    the number of folded timestamps inside [[0, period_mean]], and a
    folded timestamp above [period_mean] is not counted. *)
Theorem period_histogram_range_is_fixed
        (timestamps : list Q) (nbins : Z) (period_mean i : Q) :
  0 < period_mean -> (1 <= nbins)%Z ->
  let tmod := map (fun t => Np.mod_ t (trial_period period_mean i)) timestamps in
  let kept := flat_map (Np.in_range 0 period_mean) tmod in
  exists contents edges,
    period_hist timestamps nbins period_mean i = Ok (contents, edges) /\
    edges = Np.linspace 0 period_mean (S (Z.to_nat nbins)) /\
    (forall k, (k <= Z.to_nat nbins)%nat ->
       nth_error edges k =
       Some (0 + inject_Z (Z.of_nat k) * ((period_mean - 0) / inject_Z nbins))) /\
    contents = map (Np.count_bin 0 period_mean nbins kept)
                   (map Z.of_nat (seq 0 (Z.to_nat nbins))) /\
    sumZ contents = Z.of_nat (length kept) /\
    (forall v, period_mean < v -> Np.in_range 0 period_mean (Some v) = []).
Proof.
  intros Hpm Hn tmod kept.
  destruct (histogram_total tmod nbins 0 period_mean Hn (Qlt_le_weak _ _ Hpm))
    as (contents & edges & E).
  exists contents, edges. split; [exact E|].
  pose proof (histogram_edges _ _ _ _ _ E Hpm) as He. simpl fst in He; simpl snd in He.
  destruct (histogram_inv _ _ _ _ _ E) as (_ & _ & Hc & _).
  simpl fst in Hc; simpl snd in Hc. unfold Np.outer_edges in Hc.
  destruct (Qeq_bool 0 period_mean) eqn:E0.
  { apply Qeq_bool_iff in E0. rewrite <- E0 in Hpm. now apply Qlt_irrefl in Hpm. }
  simpl fst in Hc; simpl snd in Hc. fold tmod in Hc. fold kept in Hc.
  repeat apply conj; auto.
  - intros k Hk. rewrite He.
    destruct (Z.to_nat nbins) as [|m] eqn:Em; [lia|].
    rewrite linspace_nth by lia.
    replace (Z.of_nat (S m)) with nbins by lia. reflexivity.
  - rewrite Hc. unfold Np.count_bin. apply counts_add_up.
    intros x HI. apply kept_in_range in HI as [Hlo Hhi].
    now apply bin_index_bounds.
  - intros v. apply in_range_above.
Qed.

Lemma period_histogram_range_is_fixed_witness :
  exists contents,
    period_hist [20002 # 1000000] 1 (1 # 50) 50
    = Ok (contents, Np.linspace 0 (1 # 50) 2) /\ sumZ contents = 0%Z.
Proof.
  destruct (period_histogram_range_is_fixed [20002 # 1000000] 1 (1 # 50) 50)
    as (contents & edges & E & -> & _ & _ & Hs & _);
    [reflexivity | lia |].
  exists contents. split; [exact E | exact Hs].
Defined.

(** C2 as stated fails: at the last trial period, 0.020005 s, the
    timestamp 0.020002 s folds onto itself, above the nominal 0.02 s; the
    loop's histogram does not count it, a histogram over [[0, P_i)]
    would. *)
Lemma period_histogram_is_not_over_trial_period :
  trial_period (1 # 50) (nth 100 period_step_range 0) == 20005 # 1000000 /\
  (exists edges,
      period_hist [20002 # 1000000] 1 (1 # 50) (nth 100 period_step_range 0)
      = Ok ([0%Z], edges)) /\
  (exists edges,
      histogram_over_trial_period [20002 # 1000000] 1 (1 # 50)
                                  (nth 100 period_step_range 0)
      = Ok ([1%Z], edges)) /\
  period_hist [20002 # 1000000] 1 (1 # 50) (nth 100 period_step_range 0)
  <> histogram_over_trial_period [20002 # 1000000] 1 (1 # 50)
                                 (nth 100 period_step_range 0).
Proof.
  repeat apply conj.
  - vm_compute. reflexivity.
  - eexists. vm_compute. reflexivity.
  - eexists. vm_compute. reflexivity.
  - vm_compute. discriminate.
Qed.

(** ** The window selector *)

Lemma index_nonneg {A : Type} (l : list A) (i : Z) :
  (0 <= i < Z.of_nat (length l))%Z ->
  Np.index l i = match nth_error l (Z.to_nat i) with
                 | Some a => Ok a
                 | None => Raise IndexError
                 end.
Proof.
  intros Hi. unfold Np.index.
  destruct (Z.ltb_spec i 0); [lia|].
  destruct (Z.ltb_spec i 0); [lia|].
  destruct (Z.leb_spec (Z.of_nat (length l)) i); [lia|]. reflexivity.
Qed.

Lemma index_total {A : Type} (l : list A) (i : Z) :
  (0 <= i < Z.of_nat (length l))%Z -> exists a, Np.index l i = Ok a.
Proof.
  intros Hi. rewrite index_nonneg by exact Hi.
  destruct (nth_error l (Z.to_nat i)) eqn:E; eauto.
  apply nth_error_None in E. lia.
Qed.

Lemma index_past_end {A : Type} (l : list A) :
  Np.index l (Z.of_nat (length l)) = Raise IndexError.
Proof.
  unfold Np.index. destruct (Z.ltb_spec (Z.of_nat (length l)) 0); [lia|].
  destruct (Z.ltb_spec (Z.of_nat (length l)) 0); [lia|].
  destruct (Z.leb_spec (Z.of_nat (length l)) (Z.of_nat (length l))); [|lia].
  reflexivity.
Qed.

Lemma index_negative {A : Type} (l : list A) (i : Z) :
  (i < 0)%Z ->
  Np.index l i =
  if (i + Z.of_nat (length l) <? 0)%Z then Raise IndexError
  else match nth_error l (Z.to_nat (i + Z.of_nat (length l))) with
       | Some a => Ok a
       | None => Raise IndexError
       end.
Proof.
  intros Hi. unfold Np.index.
  destruct (Z.ltb_spec i 0); [|lia].
  destruct (Z.ltb_spec (i + Z.of_nat (length l)) 0); [reflexivity|].
  destruct (Z.leb_spec (Z.of_nat (length l)) (i + Z.of_nat (length l)));
    [lia | reflexivity].
Qed.

(** Index [-1] reads the last entry. *)
Lemma index_minus_one {A : Type} (l : list A) (a : A) :
  Np.index l (-1) = Ok a -> nth_error l (length l - 1) = Some a /\ l <> [].
Proof.
  rewrite index_negative by lia.
  destruct (Z.ltb_spec (-1 + Z.of_nat (length l)) 0); [discriminate|].
  replace (Z.to_nat (-1 + Z.of_nat (length l))) with (length l - 1)%nat by lia.
  destruct (nth_error l (length l - 1)); [|discriminate].
  intros E. injection E as <-. split; auto.
  intros ->. simpl in *. lia.
Qed.

Lemma index_minus_one_total {A : Type} (l : list A) :
  l <> [] -> exists a, Np.index l (-1) = Ok a.
Proof.
  intros Hne. rewrite index_negative by lia.
  assert (0 < length l)%nat by (destruct l; simpl; [congruence | lia]).
  destruct (Z.ltb_spec (-1 + Z.of_nat (length l)) 0); [lia|].
  destruct (nth_error l (Z.to_nat (-1 + Z.of_nat (length l)))) eqn:E; eauto.
  apply nth_error_None in E. lia.
Qed.

Lemma argmax_inv (l : list Z) (i : Z) :
  Np.argmax l = Ok i -> (0 <= i < Z.of_nat (length l))%Z.
Proof.
  unfold Np.argmax. intros E. apply bind_ok in E as (m & Em & E).
  injection E as <-. apply first_index_bounds. now apply max_spec in Em.
Qed.

(** When the peak is in the last bin the read of its right neighbour is
    past the end. *)
Lemma window_edges_last_bin (contents : list Z) (bins : list Q) (ibin : Z) :
  Np.argmax contents = Ok ibin ->
  ibin = (Z.of_nat (length contents) - 1)%Z ->
  window_edges contents bins = Raise IndexError.
Proof.
  intros Ea Hlast. pose proof (argmax_inv _ _ Ea) as Hi.
  unfold window_edges. rewrite Ea. simpl.
  assert (Hl : exists left, Np.index contents (ibin - 1) = Ok left).
  { destruct (Z.eq_dec ibin 0) as [->|Hn].
    - apply index_minus_one_total. intros ->. simpl in Hi. lia.
    - apply index_total. lia. }
  destruct Hl as (left & ->). simpl.
  destruct (index_total contents ibin Hi) as (peak & ->). simpl.
  replace (ibin + 1)%Z with (Z.of_nat (length contents)) by lia.
  now rewrite index_past_end.
Qed.

Lemma fold_bounds (a p : Q) :
  0 < p ->
  0 <= a - p * inject_Z (Qfloor (a / p)) /\
  a - p * inject_Z (Qfloor (a / p)) < p.
Proof.
  intros Hp.
  assert (Hnz : ~ p == 0).
  { intros E. rewrite E in Hp. now apply Qlt_irrefl in Hp. }
  pose proof (Qfloor_le (a / p)) as Hlo. pose proof (Qlt_floor (a / p)) as Hhi.
  rewrite inject_Z_plus in Hhi.
  set (k := inject_Z (Qfloor (a / p))) in *.
  assert (Ha : a == p * (a / p)) by (field; exact Hnz).
  split.
  - apply (proj1 (Qle_minus_iff (p * k) a)).
    rewrite Ha. now apply Qmult_le_l.
  - apply Qplus_lt_l with (z := p * k). ring_simplify.
    setoid_replace (p * k + p) with (p * (k + inject_Z 1)) by ring.
    rewrite Ha. now apply Qmult_lt_l.
Qed.

(** A fold by a positive period lies in [[0, period)]. *)
Lemma mod_bounds (a p v : Q) :
  0 < p -> Np.mod_ a p = Some v -> 0 <= v /\ v < p.
Proof.
  intros Hp. unfold Np.mod_. destruct (Qeq_bool p 0); [discriminate|].
  intros E. injection E as <-. now apply fold_bounds.
Qed.

Lemma mod_some (a p v : Q) : Np.mod_ a p = Some v -> ~ p == 0.
Proof.
  unfold Np.mod_. destruct (Qeq_bool p 0) eqn:E; [discriminate|].
  intros _ Hp. apply Qeq_bool_iff in Hp. congruence.
Qed.

Lemma gt_tenth_pos (c peak : Z) :
  (0 <= peak)%Z -> gt_tenth c peak = true -> (0 < c)%Z.
Proof.
  unfold gt_tenth. intros Hp Hg. apply negb_true_iff in Hg.
  destruct (Z.ltb_spec 0 c) as [|Hc]; [auto|]. exfalso.
  assert (L : Qle_bool (inject_Z c) ((1 # 10) * inject_Z peak) = true);
    [|congruence].
  apply Qle_bool_iff. apply Qle_trans with 0.
  - change 0 with (inject_Z 0). rewrite <- Zle_Qle. lia.
  - apply Qmult_le_0_compat; [discriminate|].
    change 0 with (inject_Z 0). rewrite <- Zle_Qle. lia.
Qed.

Lemma positive_count_in {A : Type} (f : A -> bool) (l : list A) :
  (0 < Z.of_nat (length (filter f l)))%Z -> exists x, In x l.
Proof.
  destruct (filter f l) as [|x kept] eqn:Ef; simpl length; [lia|].
  intros _. exists x. eapply proj1. apply (filter_In f). rewrite Ef. now left.
Qed.

(** A bin with a positive count holds a folded timestamp, so the period
    of the fold is not zero. *)
Lemma phase_hist_positive_count timestamps nbins bp phase contents bins c :
  phase_hist timestamps nbins bp phase = Ok (contents, bins) ->
  In c contents -> (0 < c)%Z -> ~ bp == 0.
Proof.
  intros E HI Hc. destruct (histogram_inv _ _ _ _ _ E) as (_ & _ & -> & _).
  apply in_map_iff in HI as (k & <- & _). unfold Np.count_bin in Hc.
  apply positive_count_in in Hc as (x & HI).
  apply in_flat_map in HI as (t & Ht & HI).
  apply in_range_inv in HI as (-> & _).
  unfold phase_fold in Ht. apply in_map_iff in Ht as (t0 & Ht & _).
  now apply mod_some in Ht.
Qed.

Lemma inside_above_all (timestamps : list Q) (bp phase minval maxval : Q) :
  0 < bp -> minval == bp ->
  map (inside minval maxval) (phase_fold timestamps bp phase)
  = repeat false (length timestamps).
Proof.
  intros Hbp Hmin. unfold phase_fold. rewrite map_map.
  induction timestamps as [|t ts IH]; simpl; [reflexivity|].
  rewrite IH. f_equal. unfold inside.
  destruct (Np.mod_ (t + phase) bp) as [v|] eqn:Ev; [|reflexivity].
  apply mod_bounds in Ev as [_ Hv]; [|exact Hbp].
  assert (L : Qle_bool v minval = true).
  { apply Qle_bool_iff. rewrite Hmin. now apply Qlt_le_weak. }
  now rewrite L.
Qed.

(** Two coincident candidates and a third one, two bins further. *)
Definition wrapping_timestamps : list Q := [6 # 1000; 6 # 1000; 14 # 1000].

Lemma wrapping_timestamps_best :
  exists s bins,
    find_best wrapping_timestamps 50 = Ok s /\
    final_contents s = Some [2%Z; 0%Z; 1%Z] /\
    final_bins s = Some bins /\ nbins s = 3%Z.
Proof.
  eexists. eexists. split; [vm_compute; reflexivity|].
  repeat split; reflexivity.
Qed.

(** The peak is bin 0 and the read of its left neighbour, at index [-1],
    finds a count above a tenth of the peak. *)
Definition wraps_to_last (contents : list Z) : Prop :=
  Np.argmax contents = Ok 0%Z /\
  exists left peak,
    Np.index contents (-1) = Ok left /\
    Np.index contents 0 = Ok peak /\
    gt_tenth left peak = true.

(** What the two loops leave for the window selector. *)
Lemma find_best_histogram timestamps aprox_frequency s :
  find_best timestamps aprox_frequency = Ok s ->
  exists contents bins,
    final_contents s = Some contents /\ final_bins s = Some bins /\
    nbins s = nbins_of timestamps /\
    phase_hist timestamps (nbins s) (best_period s) (best_phase s)
    = Ok (contents, bins).
Proof.
  intros Es.
  apply find_best_inv in Es as (pm & p & ph & _ & _ & _ & Eph & ->).
  destruct (later_wins_holds _ _ _ _ (phase_search_last_max _ _ _ _ _ Eph))
    as (h & _ & (c & b & Eh & _ & ->)).
  simpl. exists c, b. auto.
Qed.

(** Where the histogram has at least two bins, the wraparound does what C9
    says: when the peak of the winning histogram is bin 0 and the read at
    index [-1] passes the 10% test, the lower edge of the window is the
    last bin edge, equal to [best_period], and [find_pedestals] returns a
    mask that is [False] for every candidate. *)
Theorem wraparound_selects_nothing
        (timestamps : list Q) (aprox_frequency : Q) (s : searched)
        (contents : list Z) (bins : list Q) :
  find_best timestamps aprox_frequency = Ok s ->
  final_contents s = Some contents -> final_bins s = Some bins ->
  wraps_to_last contents ->
  (2 <= nbins s)%Z ->
  exists minval maxval,
    window_edges contents bins = Ok (minval, maxval) /\
    Np.index bins (-1) = Ok minval /\
    minval == best_period s /\
    find_pedestals timestamps aprox_frequency
    = Ok (repeat false (length timestamps)).
Proof.
  intros Es Ec Eb (Ea & left & peak & El & Ep & Hg) Hn.
  destruct (find_best_histogram _ _ _ Es) as (c & b & Ec' & Eb' & _ & Eh).
  rewrite Ec in Ec'. injection Ec' as <-. rewrite Eb in Eb'. injection Eb' as <-.
  pose proof (histogram_contents_length _ _ _ _ _ Eh) as Hlen.
  pose proof (histogram_contents_nonneg _ _ _ _ _ Eh) as Hnn.
  pose proof (histogram_range_ordered _ _ _ _ _ Eh) as Hr. simpl in Hr.
  (* the period is positive *)
  assert (Hpeak : (0 <= peak)%Z).
  { rewrite index_nonneg in Ep by lia.
    destruct (nth_error contents (Z.to_nat 0)) eqn:E0; [|discriminate].
    injection Ep as <-. apply nth_error_In in E0.
    rewrite Forall_forall in Hnn. auto. }
  assert (Hleft : In left contents).
  { apply index_minus_one in El as [El _]. now apply nth_error_In in El. }
  assert (Hbp : 0 < best_period s).
  { apply Qle_lteq in Hr as [L|L]; [exact L|]. exfalso.
    eapply phase_hist_positive_count;
      [exact Eh | exact Hleft | eapply gt_tenth_pos; eauto | now symmetry]. }
  (* the edges *)
  pose proof (histogram_edges _ _ _ _ _ Eh Hbp) as He.
  simpl fst in He; simpl snd in He.
  assert (Hblen : Z.of_nat (length bins) = (nbins s + 1)%Z).
  { eapply histogram_edges_length; eauto. }
  assert (Hmin : exists minval, Np.index bins (-1) = Ok minval /\
                                minval == best_period s).
  { destruct (Z.to_nat (nbins s)) as [|m] eqn:Em; [lia|].
    destruct (linspace_last 0 (best_period s) m) as (x & Ex & Hx).
    exists x. split; [|exact Hx].
    rewrite index_negative by lia.
    destruct (Z.ltb_spec (-1 + Z.of_nat (length bins)) 0); [lia|].
    replace (Z.to_nat (-1 + Z.of_nat (length bins))) with (S m) by lia.
    rewrite He, ?Em, Ex. reflexivity. }
  destruct Hmin as (minval & Emin & Hmin).
  destruct (index_total contents (0 + 1)) as (right & Er); [lia|].
  set (ilast := if gt_tenth right peak then (0 + 1)%Z else 0%Z).
  destruct (index_total bins (ilast + 1)) as (maxval & Emax).
  { unfold ilast. destruct (gt_tenth right peak); lia. }
  assert (Ew : window_edges contents bins = Ok (minval, maxval)).
  { unfold window_edges. rewrite Ea. cbn [bind].
    change (0 - 1)%Z with (-1)%Z.
    rewrite El. cbn [bind]. rewrite Ep. cbn [bind]. rewrite Hg.
    rewrite Er. cbn [bind]. fold ilast.
    rewrite Emin. cbn [bind]. rewrite Emax. reflexivity. }
  exists minval, maxval. repeat split; auto.
  unfold find_pedestals. rewrite Es. cbn [bind].
  unfold select_window. rewrite Ec, Eb. cbn [bind not_none]. rewrite Ew.
  cbn [bind]. f_equal. now apply inside_above_all.
Qed.

Lemma wraparound_selects_nothing_witness :
  find_pedestals wrapping_timestamps 50 = Ok (repeat false 3).
Proof.
  destruct wrapping_timestamps_best as (s & bins & Es & Ec & Eb & Hn).
  destruct (wraparound_selects_nothing _ _ s _ bins Es Ec Eb)
    as (minval & maxval & _ & _ & _ & E).
  - split; [reflexivity|]. exists 1%Z, 2%Z. repeat split; reflexivity.
  - rewrite Hn. lia.
  - exact E.
Defined.

(** C9: at a single candidate the code does not return the all-[False]
    mask.  The winning histogram has one bin, the peak is bin 0 and index
    [-1] reads that same bin, which passes the 10% test; the unguarded read
    of the right neighbour (line 163) then raises [IndexError] and no mask
    is returned. *)
Theorem wraparound_with_one_bin_raises :
  exists s contents,
    find_best [0] 50 = Ok s /\ final_contents s = Some contents /\
    wraps_to_last contents /\
    find_pedestals [0] 50 = Raise IndexError.
Proof.
  eexists. eexists. split; [vm_compute; reflexivity|].
  split; [reflexivity|]. split.
  - split; [reflexivity|]. exists 1%Z, 1%Z. repeat split; reflexivity.
  - vm_compute. reflexivity.
Qed.

(** C3: the neighbour reads of the window selector are not guarded.  With
    one candidate, the peak is the last bin and the read of its right
    neighbour raises [IndexError]; with [wrapping_timestamps] (0.006, 0.006
    and 0.014 s) the peak is bin 0, the read of its left neighbour wraps to
    the last bin, and the window that results selects nothing, not even the
    two coincident candidates of the peak. *)
Theorem neighbour_reads_are_unguarded :
  find_pedestals [0] 50 = Raise IndexError /\
  (exists s, find_best wrapping_timestamps 50 = Ok s /\
             final_contents s = Some [2%Z; 0%Z; 1%Z]) /\
  Np.index [2%Z; 0%Z; 1%Z] (-1) = Ok 1%Z /\
  find_pedestals wrapping_timestamps 50 = Ok [false; false; false].
Proof.
  repeat apply conj.
  - vm_compute. reflexivity.
  - destruct wrapping_timestamps_best as (s & _ & Es & Ec & _).
    exists s. split; assumption.
  - reflexivity.
  - vm_compute. reflexivity.
Qed.

(** ** The scatter of the candidate mask *)

Lemma put_masked_length {A : Type} (a : list A) : forall mask vals,
  length (put_masked a mask vals) = length a.
Proof.
  induction a as [|x a IH]; intros mask vals; simpl; [reflexivity|].
  destruct mask as [|b mask]; [reflexivity|].
  destruct b; [destruct vals|]; simpl; now rewrite IH.
Qed.

(** An entry whose mask bit is false is not written. *)
Lemma put_masked_unselected {A : Type} (a : list A) : forall mask vals i,
  nth_error mask i = Some false ->
  nth_error (put_masked a mask vals) i = nth_error a i.
Proof.
  induction a as [|x a IH]; intros mask vals i Hi; simpl; [reflexivity|].
  destruct mask as [|b mask]; [reflexivity|].
  destruct i as [|i]; simpl in Hi.
  - injection Hi as ->. reflexivity.
  - destruct b; [destruct vals|]; simpl; now apply IH.
Qed.

Lemma assign_masked_inv {A : Type} (a : list A) mask vals r :
  assign_masked a mask vals = Ok r -> exists vals', r = put_masked a mask vals'.
Proof.
  unfold assign_masked.
  destruct (Nat.eqb (length vals) (count_true mask)).
  - intros E. injection E as <-. eauto.
  - destruct vals as [|v [|w vals]]; try discriminate.
    intros E. injection E as <-. eauto.
Qed.

Lemma nth_error_repeat {A : Type} (x : A) (n i : nat) :
  (i < n)%nat -> nth_error (repeat x n) i = Some x.
Proof.
  revert i. induction n as [|n IH]; intros i Hi; [lia|].
  destruct i as [|i]; simpl; [reflexivity | apply IH; lia].
Qed.

(** ** The contamination remover *)

Lemma set_at_length {A : Type} (l : list A) : forall i v,
  length (set_at l i v) = length l.
Proof.
  induction l as [|x l IH]; intros [|i] v; simpl; auto.
Qed.

Lemma set_at_same {A : Type} (l : list A) : forall i v,
  (i < length l)%nat -> nth_error (set_at l i v) i = Some v.
Proof.
  induction l as [|x l IH]; intros [|i] v Hi; simpl in *; try lia; auto.
  apply IH. lia.
Qed.

Lemma set_at_other {A : Type} (l : list A) : forall i j v,
  i <> j -> nth_error (set_at l i v) j = nth_error l j.
Proof.
  induction l as [|x l IH]; intros [|i] [|j] v Hij; simpl; auto; try congruence.
Qed.

Lemma clear_all_length (idx : list nat) : forall pedmask,
  length (clear_all pedmask idx) = length pedmask.
Proof.
  unfold clear_all. induction idx as [|i idx IH]; intros m; simpl; auto.
  now rewrite IH, set_at_length.
Qed.

Lemma clear_all_other (idx : list nat) : forall pedmask j,
  ~ In j idx -> nth_error (clear_all pedmask idx) j = nth_error pedmask j.
Proof.
  unfold clear_all. induction idx as [|i idx IH]; intros m j Hj; simpl; auto.
  rewrite IH by (intros HI; apply Hj; now right).
  apply set_at_other. intros ->. apply Hj. now left.
Qed.

Lemma clear_all_cleared (idx : list nat) : forall pedmask j,
  In j idx -> (j < length pedmask)%nat ->
  nth_error (clear_all pedmask idx) j = Some false.
Proof.
  unfold clear_all. induction idx as [|i idx IH]; intros m j Hj Hlen; simpl.
  - destruct Hj.
  - destruct (in_dec Nat.eq_dec j idx) as [HI|HI].
    + apply IH; [exact HI | now rewrite set_at_length].
    + destruct Hj as [->|Hj]; [|tauto].
      fold (clear_all (set_at m j false) idx).
      rewrite clear_all_other by exact HI. now apply set_at_same.
Qed.

(** The remover never sets an entry to [True]. *)
Lemma clear_all_true (idx : list nat) (pedmask : list bool) (j : nat) :
  nth_error (clear_all pedmask idx) j = Some true ->
  nth_error pedmask j = Some true /\ ~ In j idx.
Proof.
  intros E. destruct (in_dec Nat.eq_dec j idx) as [HI|HI].
  - assert (Hj : (j < length pedmask)%nat).
    { rewrite <- (clear_all_length idx). apply nth_error_Some. congruence. }
    rewrite clear_all_cleared in E by assumption. discriminate.
  - rewrite clear_all_other in E by exact HI. auto.
Qed.

(** C5: every event the pre-filter excludes is [False] in the mask written
    back from [find_pedestals] and in the final mask; the contamination
    remover sets no entry to [True]; both masks have one entry per
    event. *)
Theorem flatfield_events_stay_false (table : list event) (run_number : Z) :
  (forall pedmask,
      scatter_candidates table run_number = Ok pedmask ->
      length pedmask = length table /\
      forall i e, nth_error table i = Some e -> is_flatfield e = true ->
                  nth_error pedmask i = Some false) /\
  (forall intensities pedmask i,
      nth_error (remove_brightest intensities pedmask) i = Some true ->
      nth_error pedmask i = Some true) /\
  (forall final,
      select_pedestals table run_number = Ok final ->
      length final = length table /\
      forall i e, nth_error table i = Some e -> is_flatfield e = true ->
                  nth_error final i = Some false).
Proof.
  assert (HS : forall pedmask,
             scatter_candidates table run_number = Ok pedmask ->
             length pedmask = length table /\
             forall i e, nth_error table i = Some e -> is_flatfield e = true ->
                         nth_error pedmask i = Some false).
  { intros pedmask E. unfold scatter_candidates in E.
    apply bind_ok in E as (found & _ & E).
    apply assign_masked_inv in E as (vals & ->).
    split; [now rewrite put_masked_length, repeat_length|].
    intros i e Hi Hff.
    rewrite put_masked_unselected.
    - apply nth_error_repeat. apply nth_error_Some. congruence.
    - rewrite !nth_error_map, Hi. simpl. now rewrite Hff. }
  assert (HR : forall intensities pedmask i,
             nth_error (remove_brightest intensities pedmask) i = Some true ->
             nth_error pedmask i = Some true).
  { intros ints m i E. now apply clear_all_true in E. }
  split; [exact HS|]. split; [exact HR|].
  intros final E. unfold select_pedestals in E.
  apply bind_ok in E as (pedmask & Es & E). injection E as <-.
  destruct (HS _ Es) as [Hlen Hf]. split.
  - unfold remove_brightest. now rewrite clear_all_length.
  - intros i e Hi Hff. specialize (Hf i e Hi Hff).
    destruct (nth_error (remove_brightest (map intensity table) pedmask) i)
      as [[|]|] eqn:En; auto.
    + apply HR in En. congruence.
    + apply nth_error_None in En. unfold remove_brightest in En.
      rewrite clear_all_length in En.
      assert (i < length pedmask)%nat by (apply nth_error_Some; congruence).
      lia.
Qed.

(** Four events, the second one a flat-field event. *)
Definition sample_table : list event :=
  [Event 1 (1 # 100) (Num 80) (Num 1); Event 2 (5 # 1000) (Num 40000) (Num 0);
   Event 3 (1 # 100) NaN (Num 1); Event 4 (1 # 1000) (Num 90) NaN].

Lemma flatfield_events_stay_false_witness :
  exists pedmask final,
    scatter_candidates sample_table 2000 = Ok pedmask /\
    nth_error pedmask 0 = Some true /\ nth_error pedmask 1 = Some false /\
    select_pedestals sample_table 2000 = Ok final /\
    nth_error final 1 = Some false.
Proof.
  assert (Hs : exists pedmask,
             scatter_candidates sample_table 2000 = Ok pedmask /\
             nth_error pedmask 0 = Some true).
  { eexists. split; [vm_compute; reflexivity | reflexivity]. }
  destruct Hs as (pedmask & Es & H0).
  assert (Hf : exists final, select_pedestals sample_table 2000 = Ok final).
  { eexists. unfold select_pedestals. rewrite Es. reflexivity. }
  destruct Hf as (final & Ef).
  destruct (flatfield_events_stay_false sample_table 2000) as (HS & _ & HF).
  exists pedmask, final. repeat apply conj; auto.
  - apply (proj2 (HS pedmask Es) 1%nat
                 (Event 2 (5 # 1000) (Num 40000) (Num 0))); reflexivity.
  - apply (proj2 (HF final Ef) 1%nat
                 (Event 2 (5 # 1000) (Num 40000) (Num 0))); reflexivity.
Defined.

(** *** The order of [np.argsort] *)

Section ArgsortFacts.

Variable key : nat -> Q.

(** [i] comes before [j] in the ascending order: a smaller value, or the
    same value and a smaller index. *)
Definition ranks_before (i j : nat) : Prop :=
  key i < key j \/ (key i == key j /\ (i < j)%nat).

Lemma insert_index_perm (i : nat) (l : list nat) :
  Permutation (insert_index key i l) (i :: l).
Proof.
  induction l as [|j l IH]; simpl; [reflexivity|].
  destruct (Qle_bool (key i) (key j)); [reflexivity|].
  rewrite IH. apply perm_swap.
Qed.

Lemma ranks_before_le (i j k : nat) :
  key i <= key j -> ranks_before j k -> (i < k)%nat -> ranks_before i k.
Proof.
  intros Hij [Hjk|[Hjk _]] Hik.
  - left. eapply Qle_lt_trans; eauto.
  - rewrite Hjk in Hij. apply Qle_lteq in Hij as [L|L]; [now left | now right].
Qed.

Lemma insert_index_sorted (i : nat) (l : list nat) :
  StronglySorted ranks_before l -> Forall (fun j => (i < j)%nat) l ->
  StronglySorted ranks_before (insert_index key i l).
Proof.
  induction l as [|j l IH]; intros Hs Hi; simpl.
  - constructor; constructor.
  - apply StronglySorted_inv in Hs as [Hs Hj].
    inversion Hi as [|? ? Hij Hil]; subst.
    destruct (Qle_bool (key i) (key j)) eqn:L.
    + apply Qle_bool_iff in L. constructor; [constructor; assumption|].
      constructor.
      * apply Qle_lteq in L as [L|L]; [now left | now right].
      * rewrite Forall_forall in *. intros k Hk.
        eapply ranks_before_le; eauto.
    + constructor; [now apply IH|].
      assert (Hji : key j < key i).
      { apply Qnot_le_lt. intros C. apply Qle_bool_iff in C. congruence. }
      rewrite Forall_forall in *. intros k Hk.
      apply (Permutation_in _ (insert_index_perm i l)) in Hk as [<-|Hk];
        [now left | auto].
Qed.

Lemma fold_insert_spec (len : nat) : forall start,
  let l := fold_right (insert_index key) [] (seq start len) in
  Permutation l (seq start len) /\ StronglySorted ranks_before l.
Proof.
  induction len as [|len IH]; intros start; simpl.
  - split; constructor.
  - destruct (IH (S start)) as [Hp Hs]. split.
    + rewrite insert_index_perm. now constructor.
    + apply insert_index_sorted; [exact Hs|].
      rewrite Forall_forall. intros j Hj.
      apply (Permutation_in _ Hp) in Hj. apply in_seq in Hj. lia.
Qed.

End ArgsortFacts.

Lemma argsort_perm (a : list Q) : Permutation (argsort a) (seq 0 (length a)).
Proof. apply fold_insert_spec. Qed.

Lemma argsort_sorted (a : list Q) :
  StronglySorted (ranks_before (fun i => nth i a 0)) (argsort a).
Proof. apply fold_insert_spec. Qed.

Section SortedLists.

Context {A : Type}.
Variable R : A -> A -> Prop.

Lemma StronglySorted_snoc (l : list A) (x : A) :
  StronglySorted R l -> Forall (fun y => R y x) l ->
  StronglySorted R (l ++ [x]).
Proof.
  induction l as [|y l IH]; intros Hs Hx; simpl.
  - constructor; constructor.
  - apply StronglySorted_inv in Hs as [Hs Hy].
    inversion Hx; subst. constructor; [now apply IH|].
    apply Forall_app. split; [exact Hy | now constructor].
Qed.

Lemma StronglySorted_filter (f : A -> bool) (l : list A) :
  StronglySorted R l -> StronglySorted R (filter f l).
Proof.
  induction l as [|x l IH]; intros Hs; simpl; [constructor|].
  apply StronglySorted_inv in Hs as [Hs Hx].
  destruct (f x); [|now apply IH].
  constructor; [now apply IH|].
  rewrite Forall_forall in *. intros y Hy. apply filter_In in Hy as [Hy _]. auto.
Qed.

Lemma StronglySorted_app_inv (l1 l2 : list A) :
  StronglySorted R (l1 ++ l2) ->
  forall x y, In x l1 -> In y l2 -> R x y.
Proof.
  induction l1 as [|z l1 IH]; simpl; intros Hs x y Hx Hy; [destruct Hx|].
  apply StronglySorted_inv in Hs as [Hs Hz].
  destruct Hx as [<-|Hx]; [|now apply IH].
  rewrite Forall_forall in Hz. apply Hz. apply in_or_app. now right.
Qed.

End SortedLists.

Lemma StronglySorted_rev {A : Type} (R : A -> A -> Prop) (l : list A) :
  StronglySorted R l -> StronglySorted (fun x y => R y x) (rev l).
Proof.
  induction l as [|x l IH]; intros Hs; simpl; [constructor|].
  apply StronglySorted_inv in Hs as [Hs Hx].
  apply StronglySorted_snoc; [now apply IH|].
  rewrite Forall_forall in *. intros y Hy. apply in_rev in Hy. auto.
Qed.

Lemma filter_perm_length {A : Type} (f : A -> bool) (l l' : list A) :
  Permutation l l' -> length (filter f l) = length (filter f l').
Proof.
  induction 1 as [|x l l' _ IH|x y l|l l' l'' _ IH1 _ IH2]; simpl; auto.
  - destruct (f x); simpl; auto.
  - destruct (f x), (f y); reflexivity.
  - congruence.
Qed.

Lemma count_true_seq (m : list bool) : forall start,
  length (filter (fun i => nth (i - start) m false) (seq start (length m)))
  = count_true m.
Proof.
  unfold count_true. induction m as [|b m IH]; intros start; simpl; [reflexivity|].
  rewrite Nat.sub_diag.
  rewrite filter_ext_in with
    (g := fun i => nth (i - S start) m false).
  - destruct b; simpl; now rewrite IH.
  - intros i Hi. apply in_seq in Hi.
    replace (i - start)%nat with (S (i - S start)) by lia. reflexivity.
Qed.

(** [i] is removed before [j]: it is brighter, or as bright and later in
    the table. *)
Definition brighter_or_later (a : list Q) (i j : nat) : Prop :=
  nth j a 0 < nth i a 0 \/ (nth j a 0 == nth i a 0 /\ (j < i)%nat).

Lemma nth_true_nth_error (m : list bool) (i : nat) :
  nth i m false = true <-> nth_error m i = Some true.
Proof.
  split; intros E.
  - destruct (Nat.lt_ge_cases i (length m)) as [L|L].
    + rewrite (nth_error_nth' m false L). now rewrite E.
    + rewrite nth_overflow in E by exact L. discriminate.
  - now apply nth_error_nth.
Qed.

Lemma remove_indices_spec (intensities : list fval) (pedmask : list bool) :
  length pedmask = length intensities ->
  let a := map nan_to_zero intensities in
  let ranked := remove_indices intensities pedmask in
  length ranked = count_true pedmask /\
  NoDup ranked /\
  (forall i, In i ranked <-> nth_error pedmask i = Some true) /\
  StronglySorted (brighter_or_later a) ranked.
Proof.
  intros Hlen a ranked. unfold ranked, remove_indices. fold a.
  assert (Hp : Permutation (rev (argsort a)) (seq 0 (length pedmask))).
  { rewrite <- Permutation_rev, argsort_perm. unfold a.
    now rewrite length_map, Hlen. }
  repeat apply conj.
  - rewrite (filter_perm_length _ _ _ Hp), <- (count_true_seq pedmask 0).
    f_equal. apply filter_ext. intros i. now rewrite Nat.sub_0_r.
  - apply NoDup_filter. apply (Permutation_NoDup (Permutation_sym Hp)).
    apply seq_NoDup.
  - intros i. rewrite filter_In, nth_true_nth_error. split; [tauto|].
    intros E. split; [|exact E].
    apply (Permutation_in _ (Permutation_sym Hp)). apply in_seq.
    assert (i < length pedmask)%nat by (apply nth_error_Some; congruence). lia.
  - apply StronglySorted_filter.
    apply (StronglySorted_rev _ _ (argsort_sorted a)).
Qed.

(** *** The remover for any ascending [np.argsort]

    Line 69 calls [np.argsort] with its default kind, which returns the
    indices in an order in which the values ascend and promises nothing on
    the order of equal values.  [ascending_argsort] is that contract;
    [argsort] above is one sort that meets it. *)
Definition ascending_argsort (sorter : list Q -> list nat) : Prop :=
  forall a,
    Permutation (sorter a) (seq 0 (length a)) /\
    StronglySorted (fun i j => nth i a 0 <= nth j a 0) (sorter a).

(** Lines 69-72 and 65-73 with [np.argsort] any such sort. *)
Definition remove_indices_with (sorter : list Q -> list nat)
           (intensities : list fval) (pedmask : list bool) : list nat :=
  let intensity := map nan_to_zero intensities in
  let decreasing_intensity_ordered_indices := rev (sorter intensity) in
  filter (fun i => nth i pedmask false) decreasing_intensity_ordered_indices.

Definition remove_brightest_with (sorter : list Q -> list nat)
           (intensities : list fval) (pedmask : list bool) : list bool :=
  clear_all pedmask
            (firstn removal_budget
                    (remove_indices_with sorter intensities pedmask)).

Lemma StronglySorted_weaken {A : Type} (R R' : A -> A -> Prop) (l : list A) :
  (forall x y, R x y -> R' x y) ->
  StronglySorted R l -> StronglySorted R' l.
Proof.
  intros HR. induction 1 as [|x l Hs IH Hx]; constructor; auto.
  eapply Forall_impl; [|exact Hx]. intros y. apply HR.
Qed.

Lemma argsort_is_ascending : ascending_argsort argsort.
Proof.
  intros a. split; [apply argsort_perm|].
  eapply StronglySorted_weaken; [|apply argsort_sorted].
  intros i j [L|[E _]]; [now apply Qlt_le_weak | rewrite E; apply Qle_refl].
Qed.

Lemma remove_brightest_with_argsort (intensities : list fval)
      (pedmask : list bool) :
  remove_brightest_with argsort intensities pedmask
  = remove_brightest intensities pedmask.
Proof. reflexivity. Qed.

Lemma remove_indices_with_spec (sorter : list Q -> list nat)
      (intensities : list fval) (pedmask : list bool) :
  ascending_argsort sorter ->
  length pedmask = length intensities ->
  let a := map nan_to_zero intensities in
  let ranked := remove_indices_with sorter intensities pedmask in
  length ranked = count_true pedmask /\
  NoDup ranked /\
  (forall i, In i ranked <-> nth_error pedmask i = Some true) /\
  StronglySorted (fun i j => nth j a 0 <= nth i a 0) ranked.
Proof.
  intros Hsort Hlen a ranked. unfold ranked, remove_indices_with. fold a.
  destruct (Hsort a) as [Hperm Hasc].
  assert (Hp : Permutation (rev (sorter a)) (seq 0 (length pedmask))).
  { rewrite <- Permutation_rev, Hperm. unfold a.
    now rewrite length_map, Hlen. }
  repeat apply conj.
  - rewrite (filter_perm_length _ _ _ Hp), <- (count_true_seq pedmask 0).
    f_equal. apply filter_ext. intros i. now rewrite Nat.sub_0_r.
  - apply NoDup_filter. apply (Permutation_NoDup (Permutation_sym Hp)).
    apply seq_NoDup.
  - intros i. rewrite filter_In, nth_true_nth_error. split; [tauto|].
    intros E. split; [|exact E].
    apply (Permutation_in _ (Permutation_sym Hp)). apply in_seq.
    assert (i < length pedmask)%nat by (apply nth_error_Some; congruence). lia.
  - apply StronglySorted_filter.
    apply (StronglySorted_rev _ _ Hasc).
Qed.

(** C4 (as amended): on a mask aligned with the intensities, and whatever
    order [np.argsort] gives to equal values, the remover flips exactly
    [min(10, count_of_True)] events from [True] to [False] and changes
    nothing else, and the flipped events are highest-intensity events among
    the previously-[True] ones (NaN ranked as 0): every flipped event is at
    least as bright as every [True] event that is left.  Which of several
    equally bright events at the cut are flipped is the choice of
    [np.argsort]. *)
Theorem brightest_are_removed_whatever_the_ties
        (sorter : list Q -> list nat)
        (intensities : list fval) (pedmask : list bool) :
  ascending_argsort sorter ->
  length pedmask = length intensities ->
  let a := map nan_to_zero intensities in
  let removed :=
    firstn removal_budget (remove_indices_with sorter intensities pedmask) in
  let final := remove_brightest_with sorter intensities pedmask in
  length removed = Nat.min 10 (count_true pedmask) /\
  NoDup removed /\
  length final = length pedmask /\
  (forall i, In i removed <->
             nth_error pedmask i = Some true /\ nth_error final i = Some false) /\
  (forall i, ~ In i removed -> nth_error final i = nth_error pedmask i) /\
  (forall i j, In i removed -> nth_error pedmask j = Some true ->
               ~ In j removed -> nth j a 0 <= nth i a 0).
Proof.
  intros Hsort Hlen a removed final.
  destruct (remove_indices_with_spec sorter intensities pedmask Hsort Hlen)
    as (Hcount & Hnd & Hin & Hs). fold a in Hs.
  pose proof (firstn_skipn removal_budget
                (remove_indices_with sorter intensities pedmask)) as Hsplit.
  fold removed in Hsplit.
  assert (Hsub : forall i, In i removed -> nth_error pedmask i = Some true).
  { intros i Hi. apply Hin. rewrite <- Hsplit. apply in_or_app. now left. }
  assert (Hcl : forall i, In i removed -> nth_error final i = Some false).
  { intros i Hi. apply clear_all_cleared; [exact Hi|].
    apply nth_error_Some. rewrite (Hsub i Hi). discriminate. }
  assert (Hoth : forall i, ~ In i removed ->
                           nth_error final i = nth_error pedmask i).
  { intros i Hi. now apply clear_all_other. }
  repeat apply conj.
  - unfold removed. now rewrite length_firstn, Hcount.
  - rewrite <- Hsplit in Hnd. now apply NoDup_app_remove_r in Hnd.
  - apply clear_all_length.
  - intros i. split; [auto|]. intros [Ht Hf].
    destruct (in_dec Nat.eq_dec i removed) as [HI|HI]; [exact HI|].
    rewrite (Hoth i HI) in Hf. congruence.
  - exact Hoth.
  - intros i j Hi Hj Hnj. rewrite <- Hsplit in Hs.
    apply (StronglySorted_app_inv _ _ _ Hs); [exact Hi|].
    apply Hin in Hj. rewrite <- Hsplit in Hj.
    apply in_app_or in Hj as [Hj|Hj]; [tauto | exact Hj].
Qed.

Lemma brightest_are_removed_whatever_the_ties_witness :
  remove_brightest
    (map Num [3; 9; 1; 7; 7; 2; 8; 4; 6; 5; 7; 10])
    [true; true; true; true; true; true; true; false; true; true; true; true]
  = [false; false; true; false; false; false; false; false; false; false;
     false; false] /\
  length (firstn removal_budget
            (remove_indices
               (map Num [3; 9; 1; 7; 7; 2; 8; 4; 6; 5; 7; 10])
               [true; true; true; true; true; true; true; false; true; true;
                true; true]))
  = Nat.min 10 11.
Proof.
  split; [vm_compute; reflexivity|].
  destruct (brightest_are_removed_whatever_the_ties
              argsort
              (map Num [3; 9; 1; 7; 7; 2; 8; 4; 6; 5; 7; 10])
              [true; true; true; true; true; true; true; false; true; true;
               true; true]) as (Hn & _);
    [exact argsort_is_ascending | reflexivity |].
  exact Hn.
Defined.

(** The ranking the claim describes: decreasing intensity, equal
    intensities in their original order (a stable descending sort). *)
Fixpoint insert_decreasing (key : nat -> Q) (i : nat) (l : list nat)
  : list nat :=
  match l with
  | [] => [i]
  | j :: l' =>
      if Qle_bool (key j) (key i) then i :: l
      else j :: insert_decreasing key i l'
  end.

Definition stable_decreasing_order (a : list Q) : list nat :=
  fold_right (insert_decreasing (fun i => nth i a 0)) [] (seq 0 (length a)).

Definition remove_brightest_stable (intensities : list fval)
           (pedmask : list bool) : list bool :=
  let ranked :=
    filter (fun i => nth i pedmask false)
           (stable_decreasing_order (map nan_to_zero intensities)) in
  clear_all pedmask (firstn removal_budget ranked).

(** C4 as stated fails: the code does not force ties into the stable
    original order.  The stable ascending sort [argsort] is an
    [np.argsort]; with it, of eleven selected events of equal intensity the
    remover keeps the first and flips the ten later ones, where ties in
    original order would flip the ten earlier ones and keep the last. *)
Lemma stable_tie_order_is_not_forced :
  ascending_argsort argsort /\
  remove_brightest (repeat (Num 1) 11) (repeat true 11)
  = true :: repeat false 10 /\
  remove_brightest_stable (repeat (Num 1) 11) (repeat true 11)
  = repeat false 10 ++ [true] /\
  ~ (forall sorter, ascending_argsort sorter ->
       remove_brightest_with sorter (repeat (Num 1) 11) (repeat true 11)
       = remove_brightest_stable (repeat (Num 1) 11) (repeat true 11)).
Proof.
  split; [exact argsort_is_ascending|].
  split; [vm_compute; reflexivity|].
  split; [vm_compute; reflexivity|].
  intros C. specialize (C argsort argsort_is_ascending).
  vm_compute in C. discriminate.
Qed.

(** * Further properties of [lstchain_find_pedestals.py] *)

(** ** The mask of [find_pedestals] and its scatter *)

Lemma find_pedestals_length timestamps aprox_frequency mask :
  find_pedestals timestamps aprox_frequency = Ok mask ->
  length mask = length timestamps.
Proof.
  unfold find_pedestals, select_window. intros E.
  apply bind_ok in E as (s & _ & E).
  apply bind_ok in E as (c & _ & E).
  apply bind_ok in E as (b & _ & E).
  apply bind_ok in E as ([mn mx] & _ & E). injection E as <-.
  unfold phase_fold. now rewrite !length_map.
Qed.

Lemma take_masked_length {A : Type} (a : list A) : forall mask,
  length a = length mask -> length (take_masked a mask) = count_true mask.
Proof.
  unfold count_true.
  induction a as [|x a IH]; intros [|b mask] Hl; simpl in *; try lia.
  destruct b; simpl; rewrite IH; lia.
Qed.

(** Reading back what was written: [a[mask] = vals; a[mask]] is [vals]. *)
Lemma take_put_masked {A : Type} (a : list A) : forall mask vals,
  length a = length mask -> length vals = count_true mask ->
  take_masked (put_masked a mask vals) mask = vals.
Proof.
  unfold count_true.
  induction a as [|x a IH]; intros [|b mask] vals Hl Hv; simpl in *; try lia.
  - destruct vals; [reflexivity | discriminate].
  - destruct b; simpl in Hv.
    + destruct vals as [|v vals]; [discriminate|]. simpl in *. f_equal.
      apply IH; lia.
    + apply IH; lia.
Qed.

Lemma candidates_length (table : list event) :
  length (take_masked (map dragon_time table)
                      (map negb (map is_flatfield table)))
  = count_true (map negb (map is_flatfield table)).
Proof. apply take_masked_length. now rewrite !length_map. Qed.

(** X1: line 57 never fails on a shape mismatch.  The mask returned by
    [find_pedestals] has one entry per candidate, so the write-back raises
    exactly when [find_pedestals] raises, with the same exception; when it
    returns, the entries of the full-length mask at the candidates are the
    returned mask, in order. *)
Theorem scatter_fails_only_with_the_search (table : list event) (run_number : Z) :
  let selector := map negb (map is_flatfield table) in
  let timestamps := take_masked (map dragon_time table) selector in
  let found := find_pedestals timestamps (approximate_frequency run_number) in
  (forall e, scatter_candidates table run_number = Raise e <-> found = Raise e) /\
  (forall mask, found = Ok mask ->
     length mask = count_true selector /\
     exists pedmask,
       scatter_candidates table run_number = Ok pedmask /\
       length pedmask = length table /\
       take_masked pedmask selector = mask).
Proof.
  intros selector timestamps found.
  assert (HOk : forall mask, found = Ok mask ->
            length mask = count_true selector /\
            scatter_candidates table run_number
            = Ok (put_masked (repeat false (length table)) selector mask)).
  { intros mask E. pose proof (find_pedestals_length _ _ _ E) as Hl.
    unfold timestamps in Hl. rewrite candidates_length in Hl.
    split; [exact Hl|].
    unfold scatter_candidates. fold selector. fold timestamps. fold found.
    rewrite E. cbn [bind]. unfold assign_masked.
    apply Nat.eqb_eq in Hl. fold selector in Hl. now rewrite Hl. }
  split.
  - intros e. split; intros E.
    + destruct found as [mask|e'] eqn:Ef.
      * destruct (HOk mask eq_refl) as [_ Es]. congruence.
      * unfold scatter_candidates in E. fold selector in E.
        fold timestamps in E. fold found in E. rewrite Ef in E. exact E.
    + unfold scatter_candidates. fold selector. fold timestamps. fold found.
      now rewrite E.
  - intros mask E. destruct (HOk mask E) as [Hl Es]. split; [exact Hl|].
    eexists. split; [exact Es|]. split.
    + now rewrite put_masked_length, repeat_length.
    + apply take_put_masked; [|exact Hl].
      unfold selector. now rewrite repeat_length, !length_map.
Qed.

Lemma scatter_fails_only_with_the_search_witness :
  scatter_candidates [Event 1 0 (Num 40000) (Num 0)] 1 = Raise ValueError.
Proof.
  apply (proj1 (scatter_fails_only_with_the_search
                  [Event 1 0 (Num 40000) (Num 0)] 1)).
  reflexivity.
Defined.

(** ** The window selector at the ends of the histogram *)

Lemma find_pedestals_last_bin timestamps aprox_frequency s contents :
  find_best timestamps aprox_frequency = Ok s ->
  final_contents s = Some contents ->
  Np.argmax contents = Ok (nbins s - 1)%Z ->
  find_pedestals timestamps aprox_frequency = Raise IndexError.
Proof.
  intros Es Ec Ea.
  destruct (find_best_histogram _ _ _ Es) as (c & b & Ec' & Eb & _ & Eh).
  rewrite Ec in Ec'. injection Ec' as <-.
  pose proof (histogram_contents_length _ _ _ _ _ Eh) as Hlen.
  unfold find_pedestals. rewrite Es. cbn [bind].
  unfold select_window. rewrite Ec, Eb. cbn [bind not_none].
  rewrite (window_edges_last_bin contents b (nbins s - 1)); [reflexivity | exact Ea | lia].
Qed.

(** X2: when the peak of the winning histogram is in its last bin,
    [find_pedestals] raises [IndexError] at the read of the right
    neighbour.  In particular a single candidate, whose histogram has one
    bin, always ends so, for every timestamp and every frequency in
    (0, 200000] Hz. *)
Theorem peak_in_last_bin_raises :
  (forall timestamps aprox_frequency s contents,
      find_best timestamps aprox_frequency = Ok s ->
      final_contents s = Some contents ->
      Np.argmax contents = Ok (nbins s - 1)%Z ->
      find_pedestals timestamps aprox_frequency = Raise IndexError) /\
  (forall t aprox_frequency,
      0 < aprox_frequency -> aprox_frequency <= 200000 ->
      find_pedestals [t] aprox_frequency = Raise IndexError).
Proof.
  split; [exact find_pedestals_last_bin|].
  intros t f Hf0 Hf1.
  destruct (find_best_total [t] f) as (s & Es); [discriminate | assumption..|].
  destruct (find_best_histogram _ _ _ Es) as (c & b & Ec & _ & Hn & Eh).
  pose proof (histogram_contents_length _ _ _ _ _ Eh) as Hlen.
  pose proof (histogram_contents_nonempty _ _ _ _ _ Eh) as Hne.
  assert (Hn1 : nbins s = 1%Z) by (rewrite Hn; reflexivity).
  destruct (Np.argmax c) as [i|e] eqn:Ea.
  - pose proof (argmax_inv _ _ Ea) as Hi.
    apply (find_pedestals_last_bin _ _ s c Es Ec).
    rewrite Ea. f_equal. lia.
  - unfold Np.argmax in Ea. destruct (max_total c Hne) as (m & Em).
    rewrite Em in Ea. discriminate.
Qed.

Lemma peak_in_last_bin_raises_witness :
  find_pedestals [37 # 10] 100 = Raise IndexError.
Proof.
  apply (proj2 peak_in_last_bin_raises); [reflexivity | discriminate].
Defined.

(** ** The window around an interior peak *)

Lemma first_index_nth (m : Z) (l : list Z) :
  In m l -> nth_error l (Z.to_nat (Np.first_index m l)) = Some m.
Proof.
  induction l as [|x l IH]; [intros []|].
  intros HI. cbn [Np.first_index].
  destruct (Z.eqb_spec x m) as [->|NE]; [reflexivity|].
  destruct HI as [E|HI]; [congruence|].
  pose proof (first_index_bounds m l HI) as Hb.
  replace (Z.to_nat (1 + Np.first_index m l))
    with (S (Z.to_nat (Np.first_index m l))) by lia.
  simpl. now apply IH.
Qed.

(** The entry at [np.argmax] is [np.max]. *)
Lemma argmax_is_max (l : list Z) (i : Z) :
  Np.argmax l = Ok i ->
  exists m, Np.max l = Ok m /\ nth_error l (Z.to_nat i) = Some m.
Proof.
  unfold Np.argmax. intros E. apply bind_ok in E as (m & Em & E).
  injection E as <-. exists m. split; [exact Em|].
  apply first_index_nth. now apply max_spec in Em.
Qed.

(** A histogram without any count has its [argmax] at bin 0. *)
Lemma argmax_positive (l : list Z) (i m : Z) :
  Forall (fun c => (0 <= c)%Z) l ->
  Np.argmax l = Ok i -> Np.max l = Ok m -> (0 < i)%Z -> (0 < m)%Z.
Proof.
  intros Hnn Ea Em Hi. unfold Np.argmax in Ea. rewrite Em in Ea.
  injection Ea as <-. pose proof (max_spec _ _ Em) as [_ Hle].
  destruct l as [|x l]; [discriminate|].
  inversion Hnn; subst. inversion Hle; subst.
  cbn [Np.first_index] in Hi.
  destruct (Z.eqb_spec x m); lia.
Qed.

(** Edge [i] of a histogram over [(0, hi)]. *)
Lemma linspace_index (hi : Q) (n : nat) (i : Z) :
  (0 <= i <= Z.of_nat (S n))%Z ->
  Np.index (Np.linspace 0 hi (S (S n))) i
  = Ok (0 + inject_Z i * ((hi - 0) / inject_Z (Z.of_nat (S n)))).
Proof.
  intros Hi. rewrite index_nonneg by (rewrite linspace_length; lia).
  rewrite linspace_nth by lia. now rewrite Z2Nat.id by lia.
Qed.

Lemma edges_ascending (hi : Q) (n : nat) (i j : Z) :
  0 <= hi -> (i <= j)%Z ->
  0 + inject_Z i * ((hi - 0) / inject_Z (Z.of_nat (S n)))
  <= 0 + inject_Z j * ((hi - 0) / inject_Z (Z.of_nat (S n))).
Proof.
  intros Hhi Hij. apply Qplus_le_r. apply Qmult_le_compat_r.
  - now rewrite <- Zle_Qle.
  - apply Qle_shift_div_l.
    + change 0 with (inject_Z 0). rewrite <- Zlt_Qlt. lia.
    + rewrite Qmult_0_l. unfold Qminus. now rewrite Qplus_0_r.
Qed.

Lemma inside_true (minval maxval v : Q) :
  minval < v -> v < maxval -> inside minval maxval (Some v) = true.
Proof.
  intros H1 H2. unfold inside.
  destruct (Qle_bool v minval) eqn:L1.
  { apply Qle_bool_iff in L1. destruct (Qlt_not_le _ _ H1 L1). }
  destruct (Qle_bool maxval v) eqn:L2.
  { apply Qle_bool_iff in L2. destruct (Qlt_not_le _ _ H2 L2). }
  reflexivity.
Qed.

(** X3: when the peak of the winning histogram is neither its first nor its
    last bin, [find_pedestals] returns a mask, and every candidate whose
    folded timestamp lies strictly inside the peak bin is selected. *)
Theorem interior_peak_bin_is_selected
        (timestamps : list Q) (aprox_frequency : Q) (s : searched)
        (contents : list Z) (ibin : Z) :
  find_best timestamps aprox_frequency = Ok s ->
  final_contents s = Some contents ->
  Np.argmax contents = Ok ibin ->
  (0 < ibin < nbins s - 1)%Z ->
  exists bins lo hi mask,
    final_bins s = Some bins /\
    Np.index bins ibin = Ok lo /\ Np.index bins (ibin + 1) = Ok hi /\
    find_pedestals timestamps aprox_frequency = Ok mask /\
    length mask = length timestamps /\
    forall k t v,
      nth_error timestamps k = Some t ->
      Np.mod_ (t + best_phase s) (best_period s) = Some v ->
      lo < v -> v < hi ->
      nth_error mask k = Some true.
Proof.
  intros Es Ec Ea Hi.
  destruct (find_best_histogram _ _ _ Es) as (c & bins & Ec' & Eb & _ & Eh).
  rewrite Ec in Ec'. injection Ec' as <-.
  pose proof (histogram_contents_length _ _ _ _ _ Eh) as Hlen.
  pose proof (histogram_contents_nonneg _ _ _ _ _ Eh) as Hnn.
  pose proof (histogram_range_ordered _ _ _ _ _ Eh) as Hr. simpl in Hr.
  destruct (argmax_is_max _ _ Ea) as (m & Em & Enth).
  assert (Hbp : 0 < best_period s).
  { apply Qle_lteq in Hr as [L|L]; [exact L|]. exfalso.
    eapply phase_hist_positive_count;
      [exact Eh | eapply nth_error_In; exact Enth
       | eapply argmax_positive; eauto; lia | now symmetry]. }
  pose proof (histogram_edges _ _ _ _ _ Eh Hbp) as He.
  simpl fst in He; simpl snd in He.
  destruct (Z.to_nat (nbins s)) as [|n] eqn:En; [lia|].
  assert (Hedge : forall i, (0 <= i <= nbins s)%Z ->
            Np.index bins i
            = Ok (0 + inject_Z i * ((best_period s - 0) / inject_Z (Z.of_nat (S n))))).
  { intros i Hi'. rewrite He. apply linspace_index. lia. }
  destruct (index_total contents (ibin - 1)) as (left & El); [lia|].
  destruct (index_total contents ibin) as (peak & Ep); [lia|].
  destruct (index_total contents (ibin + 1)) as (right & Er); [lia|].
  set (ifirst := if gt_tenth left peak then (ibin - 1)%Z else ibin).
  set (ilast := if gt_tenth right peak then (ibin + 1)%Z else ibin).
  assert (Hif : (ibin - 1 <= ifirst <= ibin)%Z)
    by (unfold ifirst; destruct (gt_tenth left peak); lia).
  assert (Hil : (ibin <= ilast <= ibin + 1)%Z)
    by (unfold ilast; destruct (gt_tenth right peak); lia).
  assert (Ew : window_edges contents bins
               = Ok (0 + inject_Z ifirst * ((best_period s - 0) / inject_Z (Z.of_nat (S n))),
                     0 + inject_Z (ilast + 1) * ((best_period s - 0) / inject_Z (Z.of_nat (S n))))).
  { unfold window_edges. rewrite Ea. cbn [bind].
    rewrite El. cbn [bind]. rewrite Ep. cbn [bind].
    rewrite Er. cbn [bind]. fold ifirst. fold ilast.
    rewrite (Hedge ifirst) by lia. cbn [bind].
    rewrite (Hedge (ilast + 1)%Z) by lia. reflexivity. }
  eexists bins, _, _, _.
  split; [exact Eb|]. split; [apply Hedge; lia|]. split; [apply Hedge; lia|].
  split.
  { unfold find_pedestals. rewrite Es. cbn [bind].
    unfold select_window. rewrite Ec, Eb. cbn [bind not_none].
    rewrite Ew. reflexivity. }
  split; [unfold phase_fold; now rewrite !length_map|].
  intros k t v Hk Hv Hlo Hhi.
  unfold phase_fold. rewrite !nth_error_map, Hk. cbn [option_map].
  rewrite Hv. f_equal. apply inside_true.
  - eapply Qle_lt_trans; [|exact Hlo].
    apply edges_ascending; [now apply Qlt_le_weak | lia].
  - eapply Qlt_le_trans; [exact Hhi|].
    apply edges_ascending; [now apply Qlt_le_weak | lia].
Qed.

(** The candidates of [sample_table]. *)
Definition sample_candidates : list Q := [1 # 100; 1 # 100; 1 # 1000].

Lemma sample_candidates_best :
  exists s bins,
    find_best sample_candidates 50 = Ok s /\
    final_contents s = Some [1%Z; 2%Z; 0%Z] /\
    final_bins s = Some bins /\ nbins s = 3%Z.
Proof.
  eexists. eexists. split; [vm_compute; reflexivity|].
  repeat split; reflexivity.
Qed.

Lemma interior_peak_bin_is_selected_witness :
  exists mask,
    find_pedestals sample_candidates 50 = Ok mask /\ length mask = 3%nat.
Proof.
  destruct sample_candidates_best as (s & bins & Es & Ec & _ & Hn).
  destruct (interior_peak_bin_is_selected _ _ s _ 1%Z Es Ec)
    as (b & lo & hi & mask & _ & _ & _ & Em & Hl & _).
  - reflexivity.
  - rewrite Hn. lia.
  - exists mask. split; [exact Em | exact Hl].
Defined.

(** ** What the two loops return *)





(** Every fold by a positive period is inside the range of the phase
    histogram. *)
Lemma phase_fold_all_kept (timestamps : list Q) (bp phase : Q) :
  0 < bp ->
  length (flat_map (Np.in_range 0 bp) (phase_fold timestamps bp phase))
  = length timestamps.
Proof.
  intros Hbp. unfold phase_fold.
  induction timestamps as [|t ts IH]; [reflexivity|].
  cbn [map flat_map]. rewrite length_app, IH.
  destruct (Np.mod_ (t + phase) bp) as [v|] eqn:Ev.
  - apply mod_bounds in Ev as [H0 H1]; [|exact Hbp].
    cbn [Np.in_range].
    apply Qle_bool_iff in H0. apply Qlt_le_weak, Qle_bool_iff in H1.
    now rewrite H0, H1.
  - unfold Np.mod_ in Ev. destruct (Qeq_bool bp 0) eqn:E0; [|discriminate].
    apply Qeq_bool_iff in E0. rewrite E0 in Hbp. now apply Qlt_irrefl in Hbp.
Qed.

(** X5: the phase loop, unlike the period loop, drops no candidate: with a
    positive [best_period] the counts of every phase histogram, and so of
    the histogram handed to the window selector, add up to the number of
    candidates; that histogram has one bin per candidate and a peak of at
    least 1. *)
Theorem phase_histogram_counts_every_candidate
        (timestamps : list Q) (nbins : Z) (bp : Q) :
  0 < bp ->
  (forall phase contents bins,
      phase_hist timestamps nbins bp phase = Ok (contents, bins) ->
      sumZ contents = Z.of_nat (length timestamps)) /\
  (forall aprox_frequency s contents,
      find_best timestamps aprox_frequency = Ok s ->
      best_period s = bp ->
      final_contents s = Some contents ->
      sumZ contents = Z.of_nat (length timestamps) /\
      length contents = length timestamps /\
      exists peak, Np.max contents = Ok peak /\ (1 <= peak)%Z).
Proof.
  intros Hbp.
  assert (HS : forall nb phase contents bins,
             phase_hist timestamps nb bp phase = Ok (contents, bins) ->
             sumZ contents = Z.of_nat (length timestamps)).
  { intros nb phase contents bins Eh.
    destruct (histogram_inv _ _ _ _ _ Eh) as (Hn & _ & Hc & _).
    simpl fst in Hc; simpl snd in Hc. unfold Np.outer_edges in Hc.
    destruct (Qeq_bool 0 bp) eqn:E0.
    { apply Qeq_bool_iff in E0. rewrite <- E0 in Hbp. now apply Qlt_irrefl in Hbp. }
    simpl fst in Hc; simpl snd in Hc.
    rewrite Hc. unfold Np.count_bin. rewrite counts_add_up.
    - now rewrite phase_fold_all_kept.
    - intros x HI. apply kept_in_range in HI as [Hlo Hhi].
      now apply bin_index_bounds. }
  split; [apply HS|].
  intros f s contents Es Ebp Ec.
  destruct (find_best_histogram _ _ _ Es) as (c & b & Ec' & _ & Hn & Eh).
  rewrite Ec in Ec'. injection Ec' as <-. rewrite Ebp in Eh.
  pose proof (HS _ _ _ _ Eh) as Hsum.
  pose proof (histogram_contents_length _ _ _ _ _ Eh) as Hlen.
  pose proof (histogram_contents_nonempty _ _ _ _ _ Eh) as Hne.
  split; [exact Hsum|]. split.
  { rewrite Hn in Hlen. unfold nbins_of, average_nevents_per_bin in Hlen.
    rewrite Z.div_1_r in Hlen. lia. }
  destruct (max_total contents Hne) as (peak & Em). exists peak.
  split; [exact Em|].
  apply max_spec in Em as [_ Hle].
  destruct (Z.le_gt_cases 1 peak) as [|Hlt]; [assumption|]. exfalso.
  assert (Hs0 : (sumZ contents <= 0)%Z).
  { clear - Hle Hlt. induction Hle as [|x l Hx _ IH]; simpl; lia. }
  assert (0 < length timestamps)%nat; [|lia].
  rewrite Hn in Hlen. unfold nbins_of, average_nevents_per_bin in Hlen.
  rewrite Z.div_1_r in Hlen.
  destruct contents; [congruence | simpl in Hlen; lia].
Qed.

Lemma phase_histogram_counts_every_candidate_witness :
  exists s contents,
    find_best wrapping_timestamps 50 = Ok s /\
    final_contents s = Some contents /\
    sumZ contents = 3%Z.
Proof.
  destruct wrapping_timestamps_best as (s & bins & Es & Ec & _ & _).
  assert (Hbp : 0 < best_period s).
  { destruct (find_best_inv _ _ _ Es) as (pm & p & ph & Epm & Ep & Ebp & _).
    destruct (later_wins_holds _ _ _ _ (period_search_last_max _ _ _ _ Ep))
      as (i & Hi & Hh).
    apply holds_some in Hh as (Hbest & _).
    rewrite Ebp in Hbest. injection Hbest as ->.
    injection Epm as <-.
    apply period_steps_from_minus_50 in Hi.
    unfold trial_period, period_step_width.
    apply Qlt_le_trans with ((1 # 50) + (-50) * (1 # 10000000)); [reflexivity|].
    apply Qplus_le_r. apply Qmult_le_compat_r; [exact Hi | discriminate]. }
  destruct (phase_histogram_counts_every_candidate
              wrapping_timestamps (nbins s) (best_period s) Hbp) as (_ & HF).
  destruct (HF 50 s _ Es eq_refl Ec) as (Hsum & _ & _).
  exists s, [2%Z; 0%Z; 1%Z]. split; [exact Es|]. split; [exact Ec | exact Hsum].
Defined.

(** ** The number of events left by the remover *)

Lemma count_true_set_at (m : list bool) : forall i,
  nth_error m i = Some true ->
  S (count_true (set_at m i false)) = count_true m.
Proof.
  unfold count_true.
  induction m as [|b m IH]; intros [|i] E; simpl in *; try discriminate.
  - injection E as ->. reflexivity.
  - destruct b; simpl; rewrite <- (IH i E); reflexivity.
Qed.

Lemma count_true_clear_all (idx : list nat) : forall m,
  NoDup idx -> (forall i, In i idx -> nth_error m i = Some true) ->
  (count_true (clear_all m idx) + length idx)%nat = count_true m.
Proof.
  unfold clear_all.
  induction idx as [|i idx IH]; intros m Hnd Hall; simpl; [lia|].
  inversion Hnd as [|? ? Hni Hnd']; subst.
  rewrite <- (count_true_set_at m i) by (apply Hall; now left).
  rewrite <- (IH (set_at m i false) Hnd'); [lia|].
  intros j Hj. rewrite set_at_other by (intros ->; tauto).
  apply Hall. now right.
Qed.

Lemma remover_count_eq (intensities : list fval) (pedmask : list bool) :
  length pedmask = length intensities ->
  (count_true (remove_brightest intensities pedmask)
   + Nat.min 10 (count_true pedmask))%nat = count_true pedmask.
Proof.
  intros Hlen.
  destruct (remove_indices_spec intensities pedmask Hlen)
    as (Hcount & Hnd & Hin & _).
  pose proof (firstn_skipn removal_budget (remove_indices intensities pedmask))
    as Hsplit.
  unfold remove_brightest. rewrite <- Hcount at 1. rewrite <- length_firstn.
  apply count_true_clear_all.
  - rewrite <- Hsplit in Hnd. now apply NoDup_app_remove_r in Hnd.
  - intros i Hi. apply Hin. rewrite <- Hsplit. apply in_or_app. now left.
Qed.

Lemma count_zero_all_false (l : list bool) :
  count_true l = 0%nat -> l = repeat false (length l).
Proof.
  unfold count_true. induction l as [|b l IH]; simpl; [reflexivity|].
  destruct b; [discriminate|]. simpl. intros E. f_equal. now apply IH.
Qed.

(** X6: on a mask aligned with the intensities the remover leaves
    [count_of_True - min(10, count_of_True)] events selected; a mask with
    at most 10 selected events comes out all [False]. *)
Theorem remover_leaves_count (intensities : list fval) (pedmask : list bool) :
  length pedmask = length intensities ->
  count_true (remove_brightest intensities pedmask)
  = (count_true pedmask - Nat.min 10 (count_true pedmask))%nat /\
  ((count_true pedmask <= 10)%nat ->
   remove_brightest intensities pedmask = repeat false (length pedmask)).
Proof.
  intros Hlen. pose proof (remover_count_eq intensities pedmask Hlen) as Hc.
  split; [lia|]. intros Hle.
  rewrite (count_zero_all_false (remove_brightest intensities pedmask)) by lia.
  unfold remove_brightest. now rewrite clear_all_length.
Qed.

Lemma remover_leaves_count_witness :
  remove_brightest [Num 3; NaN; Num 5] [true; false; true]
  = repeat false 3.
Proof.
  apply (proj2 (remover_leaves_count [Num 3; NaN; Num 5] [true; false; true]
                                     eq_refl)).
  vm_compute. lia.
Defined.

(** ** The report and the output of one file *)

Definition fmax (a b : Q) : Q := if Qle_bool a b then b else a.

(** [np.nanmax] of an array that holds no NaN; an empty array raises. *)
Definition nanmax (l : list Q) : result Q :=
  match l with
  | [] => Raise ValueError
  | x :: l' => Ok (fold_left fmax l' x)
  end.

(** What lines 76-86 print and write for one file. *)
Record report : Type := Report {
  rate : option Q;
  maximum_intensity : Q;
  pedestal_ids : list Z
}.

(** Lines 65-86, from the mask of line 57 on.  The rate is the number of
    selected events over the time span of the table ([None] when the span
    is zero and the division gives no finite number). *)
Definition write_pedestal_ids (table : list event) (pedmask : list bool)
  : result report :=
  let all_times := map dragon_time table in
  let pedmask := remove_brightest (map intensity table) pedmask in
  let brightness := map nan_to_zero (map intensity table) in
  last <- Np.index all_times (-1) ;;
  first <- Np.index all_times 0 ;;
  let span := last - first in
  let rate :=
    if Qeq_bool span 0 then None
    else Some (inject_Z (Z.of_nat (count_true pedmask)) / span) in
  maxint <- nanmax (take_masked brightness pedmask) ;;
  Ok (Report rate maxint (take_masked (map event_id table) pedmask)).

(** Lines 49-86 for one file. *)
Definition process_file (table : list event) (run_number : Z) : result report :=
  pedmask <- scatter_candidates table run_number ;;
  write_pedestal_ids table pedmask.

Lemma fold_fmax_ge (l : list Q) (x : Q) : x <= fold_left fmax l x.
Proof.
  revert x. induction l as [|y l IH]; intros x; simpl; [apply Qle_refl|].
  eapply Qle_trans; [|apply IH]. unfold fmax.
  destruct (Qle_bool x y) eqn:L; [now apply Qle_bool_iff | apply Qle_refl].
Qed.

Lemma fold_fmax_upper (l : list Q) (x : Q) :
  Forall (fun y => y <= fold_left fmax l x) l.
Proof.
  revert x. induction l as [|y l IH]; intros x; simpl; constructor; [|apply IH].
  eapply Qle_trans; [|apply fold_fmax_ge]. unfold fmax.
  destruct (Qle_bool x y) eqn:L; [apply Qle_refl|].
  apply Qlt_le_weak, Qnot_le_lt. intros C. apply Qle_bool_iff in C. congruence.
Qed.

Lemma fold_fmax_in (l : list Q) (x : Q) :
  fold_left fmax l x = x \/ In (fold_left fmax l x) l.
Proof.
  revert x. induction l as [|y l IH]; intros x; simpl; [now left|].
  destruct (IH (fmax x y)) as [E|E]; [|auto].
  rewrite E. unfold fmax. destruct (Qle_bool x y); auto.
Qed.

(** The printed maximum is one of the values and no value is above it. *)
Lemma nanmax_spec (l : list Q) (m : Q) :
  nanmax l = Ok m -> In m l /\ Forall (fun y => y <= m) l.
Proof.
  destruct l as [|x l]; simpl; [discriminate|].
  intros E. injection E as <-. split.
  - destruct (fold_fmax_in l x) as [->|HI]; auto.
  - constructor; [apply fold_fmax_ge | apply fold_fmax_upper].
Qed.

Lemma take_masked_In {A : Type} (a : list A) (x : A) : forall mask,
  In x (take_masked a mask) ->
  exists j, nth_error a j = Some x /\ nth_error mask j = Some true.
Proof.
  induction a as [|y a IH]; intros [|b mask] HI; simpl in HI; try tauto.
  destruct b.
  - destruct HI as [->|HI]; [exists 0%nat; auto|].
    destruct (IH _ HI) as (j & Ha & Hm). exists (S j). auto.
  - destruct (IH _ HI) as (j & Ha & Hm). exists (S j). auto.
Qed.

Lemma count_true_le_length (m : list bool) : (count_true m <= length m)%nat.
Proof. unfold count_true. apply filter_length_le. Qed.

Lemma report_needs_more_than_ten_aux (table : list event) (pedmask : list bool) :
  length pedmask = length table ->
  ((count_true pedmask <= 10)%nat -> table <> [] ->
   write_pedestal_ids table pedmask = Raise ValueError) /\
  ((10 < count_true pedmask)%nat ->
   exists r,
     write_pedestal_ids table pedmask = Ok r /\
     length (pedestal_ids r) = (count_true pedmask - 10)%nat).
Proof.
  intros Hlen.
  assert (Hli : length pedmask = length (map intensity table))
    by now rewrite length_map.
  pose proof (remover_count_eq (map intensity table) pedmask Hli) as Hcount.
  assert (Hfl : length (remove_brightest (map intensity table) pedmask)
                = length pedmask) by apply clear_all_length.
  assert (Hidx : table <> [] ->
            exists last first,
              Np.index (map dragon_time table) (-1) = Ok last /\
              Np.index (map dragon_time table) 0 = Ok first).
  { intros Hne.
    destruct (index_minus_one_total (map dragon_time table)) as (l & El).
    { destruct table; [congruence | discriminate]. }
    destruct (index_total (map dragon_time table) 0) as (f & Ef).
    { rewrite length_map. destruct table; [congruence | simpl length; lia]. }
    eauto. }
  split.
  - intros Hle Hne. destruct (Hidx Hne) as (l & f & El & Ef).
    unfold write_pedestal_ids. rewrite El. cbn [bind]. rewrite Ef. cbn [bind].
    rewrite (count_zero_all_false
               (remove_brightest (map intensity table) pedmask)) by lia.
    assert (E : forall n a, take_masked (A := Q) a (repeat false n) = []).
    { induction n as [|n IH]; intros [|x a]; simpl; auto. }
    now rewrite E.
  - intros Hgt.
    assert (Hne : table <> []).
    { intros ->. simpl in Hlen. pose proof (count_true_le_length pedmask). lia. }
    destruct (Hidx Hne) as (l & f & El & Ef).
    set (final := remove_brightest (map intensity table) pedmask) in *.
    assert (Hk : length (take_masked (map nan_to_zero (map intensity table)) final)
                 = (count_true pedmask - 10)%nat).
    { rewrite take_masked_length by (rewrite !length_map; lia). lia. }
    destruct (nanmax (take_masked (map nan_to_zero (map intensity table)) final))
      as [m|e] eqn:Em.
    2:{ exfalso.
        destruct (take_masked (map nan_to_zero (map intensity table)) final);
          [simpl in Hk; lia | discriminate]. }
    eexists. split.
    { unfold write_pedestal_ids. rewrite El. cbn [bind]. rewrite Ef. cbn [bind].
      fold final. rewrite Em. reflexivity. }
    cbn [pedestal_ids].
    rewrite take_masked_length by (rewrite length_map; lia). lia.
Qed.

Lemma take_masked_selected {A : Type} (a : list A) (x : A) : forall mask j,
  nth_error a j = Some x -> nth_error mask j = Some true ->
  In x (take_masked a mask).
Proof.
  induction a as [|y a IH]; intros [|b mask] [|j] Ha Hm; simpl in *;
    try discriminate.
  - injection Ha as ->. injection Hm as ->. now left.
  - destruct b; [right|]; eapply IH; eauto.
Qed.

Lemma remover_count_eq_with (sorter : list Q -> list nat)
      (intensities : list fval) (pedmask : list bool) :
  ascending_argsort sorter ->
  length pedmask = length intensities ->
  (count_true (remove_brightest_with sorter intensities pedmask)
   + Nat.min 10 (count_true pedmask))%nat = count_true pedmask.
Proof.
  intros Hsort Hlen.
  destruct (remove_indices_with_spec sorter intensities pedmask Hsort Hlen)
    as (Hcount & Hnd & Hin & _).
  pose proof (firstn_skipn removal_budget
                (remove_indices_with sorter intensities pedmask)) as Hsplit.
  unfold remove_brightest_with. rewrite <- Hcount at 1.
  rewrite <- length_firstn.
  apply count_true_clear_all.
  - rewrite <- Hsplit in Hnd. now apply NoDup_app_remove_r in Hnd.
  - intros i Hi. apply Hin. rewrite <- Hsplit. apply in_or_app. now left.
Qed.

(** Lines 65-86 with [np.argsort] any ascending sort. *)
Definition write_pedestal_ids_with (sorter : list Q -> list nat)
           (table : list event) (pedmask : list bool) : result report :=
  let all_times := map dragon_time table in
  let pedmask := remove_brightest_with sorter (map intensity table) pedmask in
  let brightness := map nan_to_zero (map intensity table) in
  last <- Np.index all_times (-1) ;;
  first <- Np.index all_times 0 ;;
  let span := last - first in
  let rate :=
    if Qeq_bool span 0 then None
    else Some (inject_Z (Z.of_nat (count_true pedmask)) / span) in
  maxint <- nanmax (take_masked brightness pedmask) ;;
  Ok (Report rate maxint (take_masked (map event_id table) pedmask)).

Lemma write_pedestal_ids_with_argsort (table : list event)
      (pedmask : list bool) :
  write_pedestal_ids_with argsort table pedmask
  = write_pedestal_ids table pedmask.
Proof. reflexivity. Qed.

(** X7: the report of a file needs more than ten selected events, whatever
    order [np.argsort] gives to equal intensities.  With at most ten events
    selected by the window, the remover leaves none and [np.nanmax] of the
    empty selection raises [ValueError], so nothing is written.  With
    more, the ids written are, in table order, exactly the ids of the
    selected events that are not among the ten removed ones; the printed
    maximum intensity is the intensity (NaN as 0) of a selected event that
    was kept, and is not above the intensity of any removed event. *)
Theorem report_needs_more_than_ten
        (sorter : list Q -> list nat)
        (table : list event) (pedmask : list bool) :
  ascending_argsort sorter ->
  length pedmask = length table ->
  let removed :=
    firstn removal_budget
           (remove_indices_with sorter (map intensity table) pedmask) in
  let kept := remove_brightest_with sorter (map intensity table) pedmask in
  ((count_true pedmask <= 10)%nat -> table <> [] ->
   write_pedestal_ids_with sorter table pedmask = Raise ValueError) /\
  ((10 < count_true pedmask)%nat ->
   exists r,
     write_pedestal_ids_with sorter table pedmask = Ok r /\
     pedestal_ids r = take_masked (map event_id table) kept /\
     length (pedestal_ids r) = (count_true pedmask - 10)%nat /\
     length removed = 10%nat /\
     (forall j, nth_error kept j = Some true <->
                nth_error pedmask j = Some true /\ ~ In j removed) /\
     (forall id, In id (pedestal_ids r) <->
        exists j e, nth_error table j = Some e /\ event_id e = id /\
                    nth_error pedmask j = Some true /\ ~ In j removed) /\
     (exists j e, nth_error table j = Some e /\
                  nth_error pedmask j = Some true /\ ~ In j removed /\
                  maximum_intensity r = nan_to_zero (intensity e)) /\
     (forall i e, In i removed -> nth_error table i = Some e ->
                  maximum_intensity r <= nan_to_zero (intensity e))).
Proof.
  intros Hsort Hlen removed kept.
  assert (Hli : length pedmask = length (map intensity table))
    by now rewrite length_map.
  pose proof (remover_count_eq_with sorter (map intensity table) pedmask
                                    Hsort Hli) as Hcount.
  fold kept in Hcount.
  assert (Hfl : length kept = length pedmask) by apply clear_all_length.
  destruct (remove_indices_with_spec sorter (map intensity table) pedmask
                                     Hsort Hli) as (Hrc & _ & Hin & Hs).
  pose proof (firstn_skipn removal_budget
                (remove_indices_with sorter (map intensity table) pedmask))
    as Hsplit.
  fold removed in Hsplit.
  assert (Hidx : table <> [] ->
            exists last first,
              Np.index (map dragon_time table) (-1) = Ok last /\
              Np.index (map dragon_time table) 0 = Ok first).
  { intros Hne.
    destruct (index_minus_one_total (map dragon_time table)) as (l & El).
    { destruct table; [congruence | discriminate]. }
    destruct (index_total (map dragon_time table) 0) as (f & Ef).
    { rewrite length_map. destruct table; [congruence | simpl length; lia]. }
    eauto. }
  assert (Hkept : forall j, nth_error kept j = Some true <->
                            nth_error pedmask j = Some true /\ ~ In j removed).
  { intros j. split.
    - apply clear_all_true.
    - intros [Hp Hn]. unfold kept, remove_brightest_with. fold removed.
      now rewrite clear_all_other. }
  split.
  - intros Hle Hne. destruct (Hidx Hne) as (l & f & El & Ef).
    unfold write_pedestal_ids_with. rewrite El. cbn [bind]. rewrite Ef.
    cbn [bind]. fold kept.
    rewrite (count_zero_all_false kept) by lia.
    assert (E : forall n a, take_masked (A := Q) a (repeat false n) = []).
    { induction n as [|n IH]; intros [|x a]; simpl; auto. }
    now rewrite E.
  - intros Hgt.
    assert (Hne : table <> []).
    { intros ->. simpl in Hlen. pose proof (count_true_le_length pedmask). lia. }
    destruct (Hidx Hne) as (l & f & El & Ef).
    assert (Hk : length (take_masked (map nan_to_zero (map intensity table)) kept)
                 = (count_true pedmask - 10)%nat).
    { rewrite take_masked_length by (rewrite !length_map; lia). lia. }
    destruct (nanmax (take_masked (map nan_to_zero (map intensity table)) kept))
      as [m|e] eqn:Em.
    2:{ exfalso.
        destruct (take_masked (map nan_to_zero (map intensity table)) kept);
          [simpl in Hk; lia | discriminate]. }
    eexists. split.
    { unfold write_pedestal_ids_with. rewrite El. cbn [bind]. rewrite Ef.
      cbn [bind]. fold kept. rewrite Em. reflexivity. }
    cbn [pedestal_ids maximum_intensity].
    split; [reflexivity|].
    split; [rewrite take_masked_length by (rewrite length_map; lia); lia|].
    split; [unfold removed; rewrite length_firstn, Hrc;
            unfold removal_budget; lia|].
    split; [exact Hkept|].
    split.
    { intros id. split.
      - intros Hid. apply take_masked_In in Hid as (j & Hj & Hkj).
        rewrite nth_error_map in Hj.
        destruct (nth_error table j) as [e|] eqn:Ej; [|discriminate].
        cbn [option_map] in Hj. injection Hj as Hid.
        apply Hkept in Hkj as [Hp Hn]. exists j, e. auto.
      - intros (j & e & Ej & Hid & Hp & Hn).
        apply (take_masked_selected _ _ kept j).
        + now rewrite nth_error_map, Ej, <- Hid.
        + apply Hkept. auto. }
    apply nanmax_spec in Em as [Hmin _].
    apply take_masked_In in Hmin as (j & Hj & Hkj).
    rewrite !nth_error_map in Hj.
    destruct (nth_error table j) as [e|] eqn:Ej; [|discriminate].
    cbn [option_map] in Hj. injection Hj as Hm.
    apply Hkept in Hkj as [Hpj Hnj].
    split; [exists j, e; auto|].
    intros i e' Hi Ei.
    rewrite <- Hsplit in Hs.
    assert (Hb : nth j (map nan_to_zero (map intensity table)) 0
                 <= nth i (map nan_to_zero (map intensity table)) 0).
    { apply (StronglySorted_app_inv _ _ _ Hs); [exact Hi|].
      apply Hin in Hpj. rewrite <- Hsplit in Hpj.
      apply in_app_or in Hpj as [Hpj|Hpj]; [tauto | exact Hpj]. }
    assert (Hnth : forall k x, nth_error table k = Some x ->
              nth k (map nan_to_zero (map intensity table)) 0
              = nan_to_zero (intensity x)).
    { intros k x Ek. apply nth_error_nth.
      now rewrite !nth_error_map, Ek. }
    now rewrite (Hnth i e' Ei), (Hnth j e Ej), Hm in Hb.
Qed.

(** Twelve events of increasing intensity, one second apart. *)
Definition twelve_events : list event :=
  map (fun k => Event k (inject_Z k) (Num (inject_Z k)) (Num 1))
      [1; 2; 3; 4; 5; 6; 7; 8; 9; 10; 11; 12]%Z.

Lemma report_needs_more_than_ten_witness :
  exists r,
    write_pedestal_ids twelve_events (false :: repeat true 11) = Ok r /\
    pedestal_ids r = [2%Z].
Proof.
  destruct (report_needs_more_than_ten
              argsort twelve_events (false :: repeat true 11)
              argsort_is_ascending eq_refl) as [_ Hw].
  destruct Hw as (r & Er & Hids & _); [vm_compute; lia|].
  exists r. split; [exact Er | exact Hids].
Defined.

Lemma scatter_candidates_inv (table : list event) (run_number : Z) pedmask :
  scatter_candidates table run_number = Ok pedmask ->
  let selector := map negb (map is_flatfield table) in
  exists mask,
    find_pedestals (take_masked (map dragon_time table) selector)
                   (approximate_frequency run_number) = Ok mask /\
    length mask = count_true selector /\
    pedmask = put_masked (repeat false (length table)) selector mask.
Proof.
  intros E selector. unfold scatter_candidates in E. fold selector in E.
  apply bind_ok in E as (mask & Ef & E). exists mask.
  pose proof (find_pedestals_length _ _ _ Ef) as Hl.
  unfold selector in Hl. rewrite candidates_length in Hl. fold selector in Hl.
  split; [exact Ef|]. split; [exact Hl|].
  unfold assign_masked in E. apply Nat.eqb_eq in Hl. rewrite Hl in E.
  congruence.
Qed.

Lemma count_true_put_masked (selector : list bool) : forall vals,
  length vals = count_true selector ->
  count_true (put_masked (repeat false (length selector)) selector vals)
  = count_true vals.
Proof.
  unfold count_true.
  induction selector as [|b sel IH]; intros vals Hv; simpl in *.
  - destruct vals; [reflexivity | discriminate].
  - destruct b; simpl in Hv.
    + destruct vals as [|v vals]; [discriminate|]. simpl in *.
      destruct v; simpl; rewrite IH by lia; reflexivity.
    + simpl. now apply IH.
Qed.

(** X8: a file is reported and written only when more than ten of its
    candidates fall in the window.  A table with at most ten events that
    are not flat-field events always ends in an exception; and when
    [process_file] returns, at least one id is written, at most the number
    of candidates minus ten, and every id written is the id of an event
    that is not a flat-field event. *)
Theorem few_candidates_are_never_written (table : list event) (run_number : Z) :
  let candidates := count_true (map negb (map is_flatfield table)) in
  ((candidates <= 10)%nat ->
   exists e, process_file table run_number = Raise e) /\
  (forall r, process_file table run_number = Ok r ->
     (1 <= length (pedestal_ids r) <= candidates - 10)%nat /\
     forall id, In id (pedestal_ids r) ->
       exists j e, nth_error table j = Some e /\ event_id e = id /\
                   is_flatfield e = false).
Proof.
  intros candidates.
  assert (HOk : forall r, process_file table run_number = Ok r ->
            (1 <= length (pedestal_ids r) <= candidates - 10)%nat /\
            forall id, In id (pedestal_ids r) ->
              exists j e, nth_error table j = Some e /\ event_id e = id /\
                          is_flatfield e = false).
  { intros r E. unfold process_file in E.
    apply bind_ok in E as (pedmask & Es & Ew).
    destruct (scatter_candidates_inv _ _ _ Es) as (mask & Ef & Hl & Hp).
    assert (Hlen : length pedmask = length table).
    { rewrite Hp. now rewrite put_masked_length, repeat_length. }
    assert (Hcnt : (count_true pedmask <= candidates)%nat).
    { rewrite Hp.
      replace (length table)
        with (length (map negb (map is_flatfield table)))
        by now rewrite !length_map.
      rewrite count_true_put_masked by exact Hl.
      unfold candidates. rewrite <- Hl. apply count_true_le_length. }
    assert (Hne : table <> []).
    { intros ->. unfold write_pedestal_ids in Ew. discriminate. }
    destruct (report_needs_more_than_ten_aux table pedmask Hlen) as [Hfew Hmany].
    destruct (Nat.le_gt_cases (count_true pedmask) 10) as [Hle|Hgt].
    { rewrite (Hfew Hle Hne) in Ew. discriminate. }
    destruct (Hmany Hgt) as (r' & Er & Hids).
    rewrite Ew in Er. injection Er as <-.
    split; [lia|].
    intros id Hid.
    unfold write_pedestal_ids in Ew.
    apply bind_ok in Ew as (l & _ & Ew). apply bind_ok in Ew as (f & _ & Ew).
    apply bind_ok in Ew as (m & _ & Ew). injection Ew as <-.
    cbn [pedestal_ids] in Hid.
    apply take_masked_In in Hid as (j & Hj & Hfj).
    rewrite nth_error_map in Hj.
    destruct (nth_error table j) as [e|] eqn:Ej; [|discriminate].
    cbn [option_map] in Hj. injection Hj as Hid.
    exists j, e. repeat split; auto.
    apply clear_all_true in Hfj as [Hpj _].
    destruct (is_flatfield e) eqn:Hff; [|reflexivity].
    rewrite Hp, put_masked_unselected in Hpj.
    - rewrite nth_error_repeat in Hpj; [discriminate|].
      apply nth_error_Some. congruence.
    - rewrite !nth_error_map, Ej. cbn [option_map]. now rewrite Hff. }
  split; [|exact HOk].
  intros Hle. destruct (process_file table run_number) as [r|e] eqn:E; [|eauto].
  destruct (HOk r eq_refl) as [Hr _]. lia.
Qed.

Lemma few_candidates_are_never_written_witness :
  exists e, process_file sample_table 2000 = Raise e.
Proof.
  apply (proj1 (few_candidates_are_never_written sample_table 2000)).
  vm_compute. lia.
Defined.

(** * Dynamic image cleaning ([lstchain/image/cleaning.py]) *)

(** The slice [a[-3:]]: the last three entries, all of them when there are
    fewer. *)
Definition last_three {A : Type} (l : list A) : list A :=
  skipn (length l - 3) l.

Definition sumQ (l : list Q) : Q := fold_right Qplus 0 l.

(** [np.mean]: NaN for an empty array. *)
Definition mean (l : list Q) : fval :=
  match l with
  | [] => NaN
  | _ => Num (sumQ l / inject_Z (Z.of_nat (length l)))
  end.

(** Lines 23-24: the average charge of the three brightest pixels. *)
Definition mean_3_max_signal (image : list Q) : fval :=
  let max_3_value_index := last_three (argsort image) in
  mean (map (fun i => nth i image 0) max_3_value_index).

(** [x >= c] against a float that may be NaN. *)
Definition fge (x : Q) (c : fval) : bool :=
  match c with
  | Num q => Qle_bool q x
  | NaN => false
  end.

Definition fscale (k : Q) (x : fval) : fval :=
  match x with
  | Num q => Num (k * q)
  | NaN => NaN
  end.

(** [cleaned_img[~signal_pixels] = 0] on a copy of the image. *)
Fixpoint zero_unselected (image : list Q) (signal_pixels : list bool) : list Q :=
  match image, signal_pixels with
  | x :: image', b :: signal' =>
      (if b then x else 0) :: zero_unselected image' signal'
  | _, _ => image
  end.

Fixpoint logical_and (a b : list bool) : list bool :=
  match a, b with
  | x :: a', y :: b' => (x && y) :: logical_and a' b'
  | _, _ => []
  end.

(** Lines 7-35.  A boolean index of another length than the image raises
    [IndexError]. *)
Definition apply_dynamic_cleaning (image : list Q) (signal_pixels : list bool)
           (threshold fraction : Q) : result (list bool) :=
  let mean_3 := mean_3_max_signal image in
  if flt mean_3 threshold then Ok signal_pixels
  else if negb (Nat.eqb (length signal_pixels) (length image))
  then Raise IndexError
  else
    let cleaned_img := zero_unselected image signal_pixels in
    let dynamic_threshold := fscale fraction mean_3 in
    let mask_dynamic_cleaning :=
      map (fun x => fge x dynamic_threshold) cleaned_img in
    Ok (logical_and signal_pixels mask_dynamic_cleaning).

Lemma logical_and_length (a : list bool) : forall b,
  length a = length b -> length (logical_and a b) = length a.
Proof.
  induction a as [|x a IH]; intros [|y b] Hl; simpl in *; try lia.
  rewrite IH; lia.
Qed.

Lemma zero_unselected_length (image : list Q) : forall signal,
  length (zero_unselected image signal) = length image.
Proof.
  induction image as [|x image IH]; intros [|b signal]; simpl; auto.
Qed.

(** Entry [i] of the cleaned mask, when the threshold is reached. *)
Lemma cleaned_entry (image : list Q) (c : fval) : forall signal i,
  length signal = length image ->
  nth_error (logical_and signal
               (map (fun x => fge x c) (zero_unselected image signal))) i
  = match nth_error signal i, nth_error image i with
    | Some b, Some x => Some (b && fge x c)
    | _, _ => None
    end.
Proof.
  induction image as [|x image IH]; intros [|b signal] i Hl; simpl in *;
    try lia.
  - now destruct i.
  - destruct i as [|i]; simpl.
    + destruct b; simpl; reflexivity.
    + apply IH. lia.
Qed.

Lemma apply_dynamic_cleaning_inv image signal threshold fraction m :
  apply_dynamic_cleaning image signal threshold fraction = Ok m ->
  (flt (mean_3_max_signal image) threshold = true /\ m = signal) \/
  (flt (mean_3_max_signal image) threshold = false /\
   length signal = length image /\
   m = logical_and signal
         (map (fun x => fge x (fscale fraction (mean_3_max_signal image)))
              (zero_unselected image signal))).
Proof.
  unfold apply_dynamic_cleaning.
  destruct (flt (mean_3_max_signal image) threshold).
  - intros E. injection E as <-. now left.
  - destruct (Nat.eqb_spec (length signal) (length image)) as [Hl|Hl];
      simpl; [|discriminate].
    intros E. injection E as <-. right. auto.
Qed.

(** X9: dynamic cleaning only removes pixels.  The mask it returns has the
    length of [signal_pixels] and is [True] only where [signal_pixels]
    is; below the threshold the mask is returned unchanged; above it, a
    pixel stays exactly when it is a signal pixel whose charge is at least
    [fraction] times the mean of the three brightest. *)
Theorem dynamic_cleaning_only_removes
        (image : list Q) (signal_pixels : list bool) (threshold fraction : Q)
        (mask : list bool) :
  apply_dynamic_cleaning image signal_pixels threshold fraction = Ok mask ->
  length mask = length signal_pixels /\
  (forall i, nth_error mask i = Some true ->
             nth_error signal_pixels i = Some true) /\
  (flt (mean_3_max_signal image) threshold = true -> mask = signal_pixels) /\
  (flt (mean_3_max_signal image) threshold = false ->
   forall i x, nth_error image i = Some x ->
     nth_error mask i = Some true <->
     nth_error signal_pixels i = Some true /\
     fge x (fscale fraction (mean_3_max_signal image)) = true).
Proof.
  intros E.
  apply apply_dynamic_cleaning_inv in E as [[Hlow ->] | (Hhigh & Hl & ->)].
  - split; [reflexivity|]. split; [auto|]. split; [reflexivity|].
    intros C. rewrite Hlow in C. discriminate.
  - assert (Hentry := cleaned_entry image
                        (fscale fraction (mean_3_max_signal image))
                        signal_pixels).
    split; [|split; [|split]].
    + apply logical_and_length.
      now rewrite length_map, zero_unselected_length.
    + intros i Hi. rewrite Hentry in Hi by exact Hl.
      destruct (nth_error signal_pixels i) as [[|]|]; try discriminate; auto.
      destruct (nth_error image i); discriminate.
    + rewrite Hhigh. discriminate.
    + intros _ i x Hx. rewrite Hentry by exact Hl. rewrite Hx.
      destruct (nth_error signal_pixels i) as [[|]|] eqn:Es; simpl.
      * split; [intros H; injection H as ->; auto | intros [_ ->]; reflexivity].
      * split; [discriminate | intros [H _]; discriminate].
      * split; [discriminate | intros [H _]; discriminate].
Qed.

Lemma dynamic_cleaning_only_removes_witness :
  exists mask,
    apply_dynamic_cleaning [10; 1; 9; 8; 4] [true; true; false; true; true]
                           5 (1 # 2) = Ok mask /\
    length mask = 5%nat /\ nth_error mask 2 <> Some true.
Proof.
  exists [true; false; false; true; false].
  assert (E : apply_dynamic_cleaning [10; 1; 9; 8; 4]
                [true; true; false; true; true] 5 (1 # 2)
              = Ok [true; false; false; true; false])
    by (vm_compute; reflexivity).
  destruct (dynamic_cleaning_only_removes _ _ _ _ _ E) as (Hl & Hsub & _).
  split; [exact E|]. split; [exact Hl|].
  intros C. apply Hsub in C. discriminate.
Defined.

Lemma logical_and_idem (a : list bool) : forall b,
  logical_and (logical_and a b) b = logical_and a b.
Proof.
  induction a as [|x a IH]; intros [|y b]; simpl; auto.
  rewrite IH. f_equal. destruct x, y; reflexivity.
Qed.

Lemma cleaned_twice (image : list Q) (c : fval) : forall signal,
  length signal = length image ->
  let clean s := logical_and s (map (fun x => fge x c) (zero_unselected image s)) in
  clean (clean signal) = clean signal.
Proof.
  induction image as [|x image IH]; intros [|b signal] Hl; simpl in *;
    try lia; auto.
  rewrite IH by lia. f_equal.
  destruct b; simpl; [|reflexivity].
  destruct (fge x c) eqn:Ef; simpl; [now rewrite Ef | reflexivity].
Qed.

(** X10: dynamic cleaning is idempotent: cleaning the mask it returned,
    with the same image, threshold and fraction, returns that mask
    again. *)
Theorem dynamic_cleaning_is_idempotent
        (image : list Q) (signal_pixels : list bool) (threshold fraction : Q)
        (mask : list bool) :
  apply_dynamic_cleaning image signal_pixels threshold fraction = Ok mask ->
  apply_dynamic_cleaning image mask threshold fraction = Ok mask.
Proof.
  intros E.
  apply apply_dynamic_cleaning_inv in E as [[Hlow ->] | (Hhigh & Hl & ->)].
  - unfold apply_dynamic_cleaning. now rewrite Hlow.
  - unfold apply_dynamic_cleaning. rewrite Hhigh.
    rewrite logical_and_length
      by now rewrite length_map, zero_unselected_length.
    apply Nat.eqb_eq in Hl. rewrite Hl. cbn [negb]. f_equal.
    apply Nat.eqb_eq in Hl.
    apply (cleaned_twice image (fscale fraction (mean_3_max_signal image))
                         signal_pixels Hl).
Qed.

Lemma dynamic_cleaning_is_idempotent_witness :
  apply_dynamic_cleaning [10; 1; 9; 8; 4] [true; false; false; true; false]
                         5 (1 # 2)
  = Ok [true; false; false; true; false].
Proof.
  apply (dynamic_cleaning_is_idempotent
           [10; 1; 9; 8; 4] [true; true; false; true; true] 5 (1 # 2)).
  vm_compute. reflexivity.
Defined.









(** X12: with a threshold that is not negative, raising the fraction only
    removes pixels: every pixel kept with the larger fraction is kept with
    the smaller one. *)
Theorem larger_fraction_keeps_fewer
        (image : list Q) (signal_pixels : list bool)
        (threshold fraction1 fraction2 : Q) (mask1 mask2 : list bool) :
  0 <= threshold -> fraction1 <= fraction2 ->
  apply_dynamic_cleaning image signal_pixels threshold fraction1 = Ok mask1 ->
  apply_dynamic_cleaning image signal_pixels threshold fraction2 = Ok mask2 ->
  forall i, nth_error mask2 i = Some true -> nth_error mask1 i = Some true.
Proof.
  intros Hth Hfr E1 E2 i Hi.
  apply apply_dynamic_cleaning_inv in E1 as [[Hlow1 ->] | (Hhigh1 & Hl & ->)];
    apply apply_dynamic_cleaning_inv in E2 as [[Hlow2 ->] | (Hhigh2 & _ & ->)];
    try congruence.
  rewrite cleaned_entry in Hi |- * by exact Hl.
  destruct (nth_error signal_pixels i) as [[|]|]; try discriminate;
    destruct (nth_error image i) as [x|]; try discriminate.
  cbn [andb] in *. injection Hi as Hi. f_equal.
  destruct (mean_3_max_signal image) as [|m]; [discriminate|].
  cbn [fscale fge flt] in *.
  apply negb_false_iff, Qle_bool_iff in Hhigh1.
  apply Qle_bool_iff in Hi. apply Qle_bool_iff.
  eapply Qle_trans; [|exact Hi].
  apply Qmult_le_compat_r;
    [exact Hfr | apply Qle_trans with threshold; assumption].
Qed.

Lemma larger_fraction_keeps_fewer_witness :
  exists mask1 mask2,
    apply_dynamic_cleaning [10; 1; 9; 8; 4] [true; true; false; true; true]
                           5 (1 # 3) = Ok mask1 /\
    apply_dynamic_cleaning [10; 1; 9; 8; 4] [true; true; false; true; true]
                           5 (8 # 9) = Ok mask2 /\
    forall i, nth_error mask2 i = Some true -> nth_error mask1 i = Some true.
Proof.
  exists [true; false; false; true; true], [true; false; false; true; false].
  assert (E1 : apply_dynamic_cleaning [10; 1; 9; 8; 4]
                 [true; true; false; true; true] 5 (1 # 3)
               = Ok [true; false; false; true; true])
    by (vm_compute; reflexivity).
  assert (E2 : apply_dynamic_cleaning [10; 1; 9; 8; 4]
                 [true; true; false; true; true] 5 (8 # 9)
               = Ok [true; false; false; true; false])
    by (vm_compute; reflexivity).
  split; [exact E1|]. split; [exact E2|].
  apply (larger_fraction_keeps_fewer
           [10; 1; 9; 8; 4] [true; true; false; true; true] 5 (1 # 3) (8 # 9)
           [true; false; false; true; true] [true; false; false; true; false]);
    [discriminate | discriminate | exact E1 | exact E2].
Defined.

(** * Event selection ([lstchain/io/event_selection.py]) *)

Section AllowedTels.

(** The rows of the event table and their [tel_id] column. *)
Variable row : Type.
Variable tel_id : row -> Z.

(** [mask |= other] on boolean arrays of one length. *)
Fixpoint or_mask (mask other : list bool) : list bool :=
  match mask, other with
  | x :: mask', y :: other' => (x || y) :: or_mask mask' other'
  | _, _ => []
  end.

(** [DL3FixedCuts.allowed_tels_filter]: the rows whose telescope is one of
    [allowed_tels]. *)
Definition allowed_tels_filter (allowed_tels : list Z) (data : list row)
  : list row :=
  let mask :=
    fold_left (fun mask id => or_mask mask (map (fun r => (tel_id r =? id)%Z) data))
              allowed_tels (repeat false (length data)) in
  take_masked data mask.

Lemma or_mask_map (f g : row -> bool) (data : list row) :
  or_mask (map f data) (map g data) = map (fun r => f r || g r) data.
Proof. induction data as [|r data IH]; simpl; [reflexivity | now rewrite IH]. Qed.

Lemma fold_or_mask (data : list row) (ids : list Z) : forall f : row -> bool,
  fold_left (fun mask id => or_mask mask (map (fun r => (tel_id r =? id)%Z) data))
            ids (map f data)
  = map (fun r => f r || existsb (fun id => (tel_id r =? id)%Z) ids) data.
Proof.
  induction ids as [|id ids IH]; intros f; simpl.
  - apply map_ext. intros r. now rewrite orb_false_r.
  - rewrite or_mask_map, IH. apply map_ext. intros r. now rewrite orb_assoc.
Qed.

Lemma take_masked_map (f : row -> bool) (data : list row) :
  take_masked data (map f data) = filter f data.
Proof.
  induction data as [|r data IH]; simpl; [reflexivity|].
  destruct (f r); now rewrite IH.
Qed.

(** X13: [allowed_tels_filter] keeps exactly the rows whose [tel_id] is
    listed in [allowed_tels], each once and in table order, whatever the
    order of the list and however often an id is repeated in it. *)
Theorem allowed_tels_filter_keeps_listed (allowed_tels : list Z) (data : list row) :
  allowed_tels_filter allowed_tels data
  = filter (fun r => existsb (fun id => (tel_id r =? id)%Z) allowed_tels) data /\
  (forall r, In r (allowed_tels_filter allowed_tels data) <->
             In r data /\ In (tel_id r) allowed_tels) /\
  (forall other, (forall id, In id allowed_tels <-> In id other) ->
                 allowed_tels_filter other data
                 = allowed_tels_filter allowed_tels data).
Proof.
  assert (HE : forall ids,
             allowed_tels_filter ids data
             = filter (fun r => existsb (fun id => (tel_id r =? id)%Z) ids) data).
  { intros ids. unfold allowed_tels_filter.
    replace (repeat false (length data)) with (map (fun _ : row => false) data).
    - rewrite fold_or_mask. cbn [orb]. apply take_masked_map.
    - induction data as [|r d IH]; simpl; [reflexivity | now rewrite IH]. }
  assert (HIn : forall ids r,
             existsb (fun id => (tel_id r =? id)%Z) ids = true
             <-> In (tel_id r) ids).
  { intros ids r. rewrite existsb_exists. split.
    - intros (id & Hid & E). apply Z.eqb_eq in E. now rewrite E.
    - intros Hid. exists (tel_id r). split; [exact Hid | apply Z.eqb_refl]. }
  split; [apply HE|]. split.
  - intros r. rewrite HE, filter_In, HIn. reflexivity.
  - intros other Hsame. rewrite !HE. apply filter_ext. intros r.
    apply eq_true_iff_eq. rewrite !HIn. symmetry. apply Hsame.
Qed.

End AllowedTels.

Lemma allowed_tels_filter_keeps_listed_witness :
  allowed_tels_filter Z (fun r => r) [2; 1; 1]%Z [1; 3; 2; 1]%Z
  = allowed_tels_filter Z (fun r => r) [1; 2]%Z [1; 3; 2; 1]%Z.
Proof.
  apply (proj2 (proj2 (allowed_tels_filter_keeps_listed
                         Z (fun r => r) [1; 2]%Z [1; 3; 2; 1]%Z))).
  intros id. simpl. tauto.
Defined.

(** * Calibration files on site ([lstchain/onsite.py]) *)

(** A path that was found, or [IOError]. *)
Inductive located (A : Type) : Type :=
| Located (a : A)
| RaiseIOError.

Arguments Located {A} a.
Arguments RaiseIOError {A}.

Section TimeCalibration.

(** Paths, the run number [parse_calibration_name] reads in a file name,
    and [Path.resolve]. *)
Variable path : Type.
Variable run_of : path -> Z.
Variable resolve : path -> path.

(** The loop of lines 87-93: the last file met before the first one whose
    run is after [run]. *)
Fixpoint last_until (run : Z) (file_list : list path) (time_file : option path)
  : option path :=
  match file_list with
  | [] => time_file
  | p :: rest =>
      if (run_of p <=? run)%Z then last_until run rest (Some (resolve p))
      else time_file
  end.

(** Lines 74-105.  [all_files] is the sorted list of the time calibration
    files of the production, [run_files r] the sorted list of those of run
    [r]. *)
Definition find_time_calibration_file
           (all_files : list path) (run_files : Z -> list path)
           (run : Z) (time_run : option Z) : located path :=
  match time_run with
  | None =>
      match all_files with
      | [] => RaiseIOError
      | _ =>
          match last_until run all_files None with
          | None => RaiseIOError
          | Some time_file => Located time_file
          end
      end
  | Some r =>
      match run_files r with
      | [] => RaiseIOError
      | p :: _ => Located (resolve p)
      end
  end.

Definition by_run (p q : path) : Prop := (run_of p <= run_of q)%Z.

(** The loop stops at the first file after [run] and holds the file just
    before it. *)
Lemma last_until_spec (run : Z) (file_list : list path) : forall acc,
  exists before rest,
    file_list = before ++ rest /\
    Forall (fun p => (run_of p <= run)%Z) before /\
    (rest = [] \/ exists q rest', rest = q :: rest' /\ (run < run_of q)%Z) /\
    last_until run file_list acc
    = match rev before with
      | [] => acc
      | p :: _ => Some (resolve p)
      end.
Proof.
  induction file_list as [|p l IH]; intros acc.
  - exists [], []. repeat split; auto.
  - simpl. destruct (Z.leb_spec (run_of p) run) as [Hle|Hgt].
    + destruct (IH (Some (resolve p))) as (before & rest & -> & Hall & Hrest & E).
      exists (p :: before), rest. repeat split; auto.
      rewrite E. simpl.
      destruct (rev before) as [|q r] eqn:Er; simpl; [reflexivity|].
      reflexivity.
    + exists [], (p :: l). repeat split; auto. right. eauto.
Qed.

(** X14: without [time_run], [find_time_calibration_file] returns the
    resolved path of a listed file whose run is not after [run], and when
    the list is in run order no listed file with a run up to [run] has a
    later run than the one returned.  It raises [IOError] exactly when the
    list is empty or its first file is already after [run]. *)
Theorem time_calibration_is_latest_before
        (all_files : list path) (run_files : Z -> list path) (run : Z) :
  (forall time_file,
      find_time_calibration_file all_files run_files run None
      = Located time_file ->
      exists p, In p all_files /\ time_file = resolve p /\
                (run_of p <= run)%Z /\
                (StronglySorted by_run all_files ->
                 forall q, In q all_files -> (run_of q <= run)%Z ->
                           (run_of q <= run_of p)%Z)) /\
  (find_time_calibration_file all_files run_files run None = RaiseIOError <->
   all_files = [] \/
   exists p rest, all_files = p :: rest /\ (run < run_of p)%Z).
Proof.
  destruct (last_until_spec run all_files None)
    as (before & rest & Hsplit & Hall & Hrest & E).
  unfold find_time_calibration_file. split.
  - intros f Ef. destruct all_files as [|p0 l0] eqn:Ea; [discriminate|].
    rewrite <- Ea in *. rewrite E in Ef.
    destruct (rev before) as [|p r] eqn:Er; [discriminate|].
    injection Ef as <-.
    assert (Hb : before = rev r ++ [p]).
    { rewrite <- (rev_involutive before), Er. reflexivity. }
    exists p. rewrite Forall_forall in Hall.
    assert (Hp : In p before) by (rewrite Hb; apply in_or_app; right; now left).
    split; [rewrite Hsplit; apply in_or_app; now left|].
    split; [reflexivity|]. split; [now apply Hall|].
    intros Hs q Hq Hqr. rewrite Hsplit, Hb in Hs, Hq.
    rewrite <- app_assoc in Hs, Hq. simpl in Hs, Hq.
    apply in_app_or in Hq as [Hq|[<-|Hq]].
    + apply (StronglySorted_app_inv _ _ _ Hs q p Hq). now left.
    + lia.
    + exfalso. destruct Hrest as [->|(q' & rest' & -> & Hgt)]; [destruct Hq|].
      assert (Hq' : by_run q' q).
      { destruct Hq as [<-|Hq]; [unfold by_run; lia|].
        assert (Hs' : StronglySorted by_run (q' :: rest')).
        { clear - Hs. induction (rev r) as [|a l IH]; simpl in Hs.
          - now apply StronglySorted_inv in Hs as [Hs _].
          - apply IH. now apply StronglySorted_inv in Hs as [Hs _]. }
        apply StronglySorted_inv in Hs' as [_ Hf].
        rewrite Forall_forall in Hf. now apply Hf. }
      unfold by_run in Hq'. lia.
  - destruct all_files as [|p0 l0] eqn:Ea; [tauto|].
    rewrite <- Ea in *. rewrite E. split.
    + intros Ef. right.
      destruct (rev before) as [|p r] eqn:Er; [|discriminate].
      assert (before = []) as ->.
      { rewrite <- (rev_involutive before), Er. reflexivity. }
      simpl in Hsplit.
      destruct Hrest as [->|(q & rest' & -> & Hgt)]; [congruence|].
      exists q, rest'. split; [congruence | exact Hgt].
    + intros [C|(p & rest0 & Hp & Hgt)]; [congruence|].
      destruct before as [|b before'].
      * reflexivity.
      * exfalso. rewrite Hsplit in Hp. simpl in Hp. injection Hp as -> _.
        inversion Hall; subst. lia.
Qed.

End TimeCalibration.

Lemma time_calibration_is_latest_before_witness :
  find_time_calibration_file Z (fun p => p) (fun p => p)
                             [2005; 2113; 2370]%Z (fun _ => []) 2200%Z None
  = Located 2113%Z /\
  exists p, In p [2005; 2113; 2370]%Z /\ 2113%Z = p /\ (p <= 2200)%Z.
Proof.
  split; [reflexivity|].
  destruct (proj1 (time_calibration_is_latest_before
                     Z (fun p => p) (fun p => p)
                     [2005; 2113; 2370]%Z (fun _ => []) 2200%Z)
                  2113%Z eq_refl) as (p & Hp & Hr & Hle & _).
  exists p. auto.
Defined.

From Stdlib Require Import Ascii String.

(** ** The systematics correction file *)

(** [a <= b] on [str]: the lexicographic order of the characters. *)
Definition str_le (a b : string) : bool := String.leb a b.

Lemma ascii_compare_refl (a : ascii) : Ascii.compare a a = Eq.
Proof. unfold Ascii.compare. apply N.compare_refl. Qed.

Lemma ascii_compare_lt_trans (a b c : ascii) :
  Ascii.compare a b = Lt -> Ascii.compare b c = Lt -> Ascii.compare a c = Lt.
Proof.
  unfold Ascii.compare. rewrite !N.compare_lt_iff. apply N.lt_trans.
Qed.

Lemma str_le_refl (a : string) : str_le a a = true.
Proof.
  unfold str_le, String.leb.
  induction a as [|c a IH]; simpl; [reflexivity|].
  now rewrite ascii_compare_refl.
Qed.

Lemma str_le_trans (a : string) : forall b c,
  str_le a b = true -> str_le b c = true -> str_le a c = true.
Proof.
  unfold str_le, String.leb.
  induction a as [|x a IH]; intros [|y b] [|z c]; simpl; auto; try discriminate.
  destruct (Ascii.compare x y) eqn:Exy; try discriminate;
    destruct (Ascii.compare y z) eqn:Eyz; try discriminate; intros H1 H2.
  - apply Ascii.compare_eq_iff in Exy, Eyz. subst.
    rewrite ascii_compare_refl. now apply IH with b.
  - apply Ascii.compare_eq_iff in Exy. subst. now rewrite Eyz.
  - apply Ascii.compare_eq_iff in Eyz. subst. now rewrite Exy.
  - now rewrite (ascii_compare_lt_trans x y z).
Qed.

Lemma str_le_total (a b : string) : str_le a b = true \/ str_le b a = true.
Proof. apply String.leb_total. Qed.

(** [sorted(..., reverse=True)] on strings: the dates from the latest to
    the earliest. *)
Fixpoint insert_latest_first (day : string) (l : list string) : list string :=
  match l with
  | [] => [day]
  | x :: l' =>
      if str_le x day then day :: l else x :: insert_latest_first day l'
  end.

Definition sorted_reverse (l : list string) : list string :=
  fold_right insert_latest_first [] l.

Section SystematicsFile.

(** Paths, the path of the systematics file of a date in the production
    ([sys_dir / day / pro / ffactor_systematics_day.h5], resolved), and
    [Path.exists]. *)
Variable path : Type.
Variable file_of_date : string -> path.
Variable path_exists : path -> bool.

(** Lines 121-122: the latest date up to [date], or else the earliest
    date there is. *)
Definition select_date (dates : list string) (date : string) : string :=
  let sys_date_list := sorted_reverse dates in
  match find (fun day => str_le day date) sys_date_list with
  | Some day => day
  | None => last sys_date_list EmptyString
  end.

(** Lines 108-124.  [dir_dates] holds, for each systematics file found in
    the tree, the date directory it is in. *)
Definition find_systematics_correction_file
           (dir_dates : list string) (date : string) (sys_date : option string)
  : located path :=
  match sys_date with
  | Some day =>
      if path_exists (file_of_date day) then Located (file_of_date day)
      else RaiseIOError
  | None =>
      match dir_dates with
      | [] => RaiseIOError
      | _ => Located (file_of_date (select_date dir_dates date))
      end
  end.

Definition latest_first (a b : string) : Prop := str_le b a = true.

Lemma insert_latest_first_perm (day : string) (l : list string) :
  Permutation (insert_latest_first day l) (day :: l).
Proof.
  induction l as [|x l IH]; simpl; [reflexivity|].
  destruct (str_le x day); [reflexivity|].
  rewrite IH. apply perm_swap.
Qed.

Lemma insert_latest_first_sorted (day : string) (l : list string) :
  StronglySorted latest_first l ->
  StronglySorted latest_first (insert_latest_first day l).
Proof.
  induction l as [|x l IH]; intros Hs; simpl.
  - constructor; constructor.
  - apply StronglySorted_inv in Hs as [Hs Hx].
    destruct (str_le x day) eqn:L.
    + constructor; [constructor; assumption|].
      constructor; [exact L|].
      rewrite Forall_forall in *. intros y Hy. unfold latest_first.
      apply str_le_trans with x; [apply Hx, Hy | exact L].
    + constructor; [now apply IH|].
      rewrite Forall_forall in *. intros y Hy.
      apply (Permutation_in _ (insert_latest_first_perm day l)) in Hy
        as [<-|Hy]; [|auto].
      unfold latest_first. destruct (str_le_total x day); congruence.
Qed.

Lemma sorted_reverse_spec (l : list string) :
  Permutation (sorted_reverse l) l /\
  StronglySorted latest_first (sorted_reverse l).
Proof.
  induction l as [|x l [Hp Hs]]; simpl; [split; constructor|]. split.
  - rewrite insert_latest_first_perm. now constructor.
  - now apply insert_latest_first_sorted.
Qed.

Lemma find_latest (date : string) (l : list string) (day : string) :
  StronglySorted latest_first l ->
  find (fun d => str_le d date) l = Some day ->
  forall d, In d l -> str_le d date = true -> str_le d day = true.
Proof.
  induction l as [|x l IH]; intros Hs E d Hd Hle; simpl in *; [destruct Hd|].
  apply StronglySorted_inv in Hs as [Hs Hx].
  destruct (str_le x date) eqn:L.
  - injection E as <-. destruct Hd as [<-|Hd]; [apply str_le_refl|].
    rewrite Forall_forall in Hx. now apply Hx.
  - destruct Hd as [<-|Hd]; [congruence|]. now apply IH.
Qed.

Lemma last_is_earliest (l : list string) (d0 : string) :
  StronglySorted latest_first l ->
  forall d, In d l -> str_le (last l d0) d = true.
Proof.
  induction l as [|x l IH]; intros Hs d Hd; [destruct Hd|].
  apply StronglySorted_inv in Hs as [Hs Hx].
  destruct l as [|y l].
  - destruct Hd as [<-|[]]. apply str_le_refl.
  - change (last (x :: y :: l) d0) with (last (y :: l) d0).
    destruct Hd as [<-|Hd]; [|now apply IH].
    rewrite Forall_forall in Hx. apply Hx.
    clear. revert y. induction l as [|z l IH]; intros y; [now left|].
    right. apply IH.
Qed.

(** X15: without [sys_date], [find_systematics_correction_file] raises
    [IOError] exactly when no systematics file is found; otherwise it
    returns the file of one of the dates found: the latest date that is
    not after [date], or, when every date found is after [date], the
    earliest date found. *)
Theorem systematics_date_is_latest_before
        (dir_dates : list string) (date : string) :
  (find_systematics_correction_file dir_dates date None = RaiseIOError
   <-> dir_dates = []) /\
  (dir_dates <> [] ->
   let day := select_date dir_dates date in
   find_systematics_correction_file dir_dates date None
   = Located (file_of_date day) /\
   In day dir_dates /\
   ((exists d, In d dir_dates /\ str_le d date = true) ->
    str_le day date = true /\
    forall d, In d dir_dates -> str_le d date = true -> str_le d day = true) /\
   ((forall d, In d dir_dates -> str_le d date = false) ->
    forall d, In d dir_dates -> str_le day d = true)).
Proof.
  split.
  - unfold find_systematics_correction_file.
    destruct dir_dates; split; try reflexivity; discriminate.
  - intros Hne day.
    destruct (sorted_reverse_spec dir_dates) as [Hp Hs].
    assert (Hsne : sorted_reverse dir_dates <> []).
    { intros E. rewrite E in Hp. apply Permutation_nil in Hp. congruence. }
    split.
    { unfold find_systematics_correction_file. destruct dir_dates; [congruence|].
      reflexivity. }
    unfold day, select_date.
    destruct (find (fun d => str_le d date) (sorted_reverse dir_dates))
      as [d0|] eqn:Ef.
    + pose proof (find_some _ _ Ef) as [Hin Hle].
      split; [now apply (Permutation_in _ Hp)|]. split.
      * intros _. split; [exact Hle|]. intros d Hd Hdle.
        apply (find_latest date _ d0 Hs Ef); [|exact Hdle].
        now apply (Permutation_in _ (Permutation_sym Hp)).
      * intros Hall. apply (Permutation_in _ Hp), Hall in Hin. congruence.
    + pose proof (find_none _ _ Ef) as Hnone.
      split.
      { apply (Permutation_in _ Hp).
        destruct (exists_last Hsne) as (l' & a & E). rewrite E.
        rewrite last_last. apply in_or_app. right. now left. }
      split.
      * intros (d & Hd & Hdle).
        apply (Permutation_in _ (Permutation_sym Hp)), Hnone in Hd. congruence.
      * intros _ d Hd. apply last_is_earliest; [exact Hs|].
        now apply (Permutation_in _ (Permutation_sym Hp)).
Qed.

End SystematicsFile.

Lemma systematics_date_is_latest_before_witness :
  find_systematics_correction_file string (fun d => d) (fun _ => true)
    ["20201110"; "20200725"; "20210101"]%string "20201231"%string None
  = Located "20201110"%string /\
  In "20201110"%string ["20201110"; "20200725"; "20210101"]%string.
Proof.
  destruct (proj2 (systematics_date_is_latest_before
                     string (fun d => d) (fun _ => true)
                     ["20201110"; "20200725"; "20210101"]%string
                     "20201231"%string)) as (E & Hin & _); [discriminate|].
  split; [exact E | exact Hin].
Defined.
